(** * Car viewer (backend/main.go): a shallow embedding and its properties

    The program is a small Go web front end: three HTTP handlers fetch
    JSON from an upstream API, filter or select cars in memory and render
    an HTML template.  Go strings are byte strings ([string], one [ascii]
    per byte), Go's [int] is a 64-bit integer kept as [Z] (identifiers are
    only compared, never computed with), [map[int]string] is
    [gmap Z string], and the effects of a handler (HTTP round trips, the
    template files, the log) are threaded through an explicit state. *)

From Stdlib Require Import ZArith Ascii String List Lia.
From Stdlib Require Import DecimalString DecimalPos DecimalZ.
From stdpp Require Import base option list strings gmap.

Local Open Scope string_scope.
Local Open Scope list_scope.
Local Open Scope Z_scope.

(** ** 1. Data structures (main.go, lines 13-52) *)

Record Specification := mkSpecification {
  Engine : string;
  Horsepower : Z;
  Transmission : string;
  Drivetrain : string
}.

Record Car := mkCar {
  ID : Z;
  Name : string;
  ManufacturerID : Z;
  CategoryID : Z;
  Year : Z;
  Specifications : Specification;
  Image : string
}.

Record Category := mkCategory {
  Category_ID : Z;
  Category_Name : string
}.

Record Manufacturer := mkManufacturer {
  Manufacturer_ID : Z;
  Manufacturer_Name : string
}.

(** ** 2. The pieces of Go's [strings] package that the handlers call *)

Module strings.

(** [utf8.RuneSelf]: bytes below it are single-byte (ASCII) runes. *)
Definition RuneSelf : N := 128.

Definition byte (c : ascii) : N := N_of_ascii c.

Definition isUpperByte (c : ascii) : bool :=
  ((byte "A" <=? byte c) && (byte c <=? byte "Z"))%N.

(** [c += 'a' - 'A'] on the upper-case bytes, the others unchanged. *)
Definition lowerByte (c : ascii) : ascii :=
  if isUpperByte c then ascii_of_N (byte c + (byte "a" - byte "A")) else c.

Fixpoint isASCII (s : string) : bool :=
  match s with
  | EmptyString => true
  | String c s' => if (RuneSelf <=? byte c)%N then false else isASCII s'
  end.

Fixpoint hasUpper (s : string) : bool :=
  match s with
  | EmptyString => false
  | String c s' => isUpperByte c || hasUpper s'
  end.

Fixpoint mapBytes (f : ascii -> ascii) (s : string) : string :=
  match s with
  | EmptyString => EmptyString
  | String c s' => String (f c) (mapBytes f s')
  end.

Section ToLower.
(** The slow path of [strings.ToLower], [Map(unicode.ToLower, s)], is
    driven by the Unicode case tables; it is only reached by strings
    holding a byte >= 0x80 and is left abstract. *)
Variable mapUnicodeToLower : string -> string.

Definition ToLower (s : string) : string :=
  if isASCII s then
    if negb (hasUpper s) then s else mapBytes lowerByte s
  else mapUnicodeToLower s.
End ToLower.

Fixpoint HasPrefix (s prefix : string) {struct prefix} : bool :=
  match prefix, s with
  | EmptyString, _ => true
  | String _ _, EmptyString => false
  | String p prefix', String c s' =>
      if Ascii.eqb c p then HasPrefix s' prefix' else false
  end.

(** [Index s substr]: the first byte offset at which [substr] occurs in
    [s], or -1. *)
Fixpoint indexFrom (i : Z) (s substr : string) : Z :=
  if HasPrefix s substr then i
  else match s with
       | EmptyString => -1
       | String _ s' => indexFrom (i + 1) s' substr
       end.

Definition Index (s substr : string) : Z := indexFrom 0 s substr.

Definition Contains (s substr : string) : bool := (0 <=? Index s substr)%Z.

End strings.

(** ** 3. The pieces of Go's [strconv] package that the handlers call

    [int] is 64 bits wide ([intSize = 64]). *)

Module strconv.

Inductive NumError := ErrSyntax | ErrRange.

Definition intSize : Z := 64.
Definition maxUint64 : Z := 2 ^ 64 - 1.

(** Conversions between the fixed-width integer types wrap around. *)
Definition uint8 (z : Z) : Z := z mod 2 ^ 8.
Definition uint64 (z : Z) : Z := z mod 2 ^ 64.
Definition int64 (z : Z) : Z := (z + 2 ^ 63) mod 2 ^ 64 - 2 ^ 63.

Definition byte (c : ascii) : Z := Z.of_N (N_of_ascii c).

(** [lower(c) = c | ('x' - 'X')]. *)
Definition lower (c : ascii) : Z := Z.lor (byte c) (byte "x" - byte "X").

(** The [switch] on a byte [c] in the loop of [ParseUint]: its value as
    a digit or a letter, [None] for the [default] case.  With base 10
    the underscore case does not apply. *)
Definition digit (c : ascii) : option Z :=
  if (byte "0" <=? byte c) && (byte c <=? byte "9")
  then Some (uint8 (byte c - byte "0"))
  else if (byte "a" <=? lower c) && (lower c <=? byte "z")
  then Some (uint8 (lower c - byte "a" + 10))
  else None.

(** The digit loop of [ParseUint(s, 10, 0)]; [n] is the [uint64]
    accumulator.  The range check sits inside the loop and returns at
    once, before the bytes that follow are looked at. *)
Fixpoint parseUintLoop (s : string) (n : Z) : Z * option NumError :=
  match s with
  | EmptyString => (n, None)
  | String c s' =>
      let base := 10 in
      let cutoff := maxUint64 / 10 + 1 in
      let maxVal := uint64 (Z.shiftl 1 intSize - 1) in
      match digit c with
      | None => (0, Some ErrSyntax)
      | Some d =>
          if base <=? d then (0, Some ErrSyntax)
          else if cutoff <=? n then (maxVal, Some ErrRange)
          else
            let n := uint64 (n * base) in
            let n1 := uint64 (n + d) in
            if (n1 <? n) || (maxVal <? n1) then (maxVal, Some ErrRange)
            else parseUintLoop s' n1
      end
  end.

Definition ParseUint (s : string) : Z * option NumError :=
  match s with
  | EmptyString => (0, Some ErrSyntax)
  | _ => parseUintLoop s 0
  end.

(** [ParseInt(s, 10, 0)]. *)
Definition ParseInt (s : string) : Z * option NumError :=
  match s with
  | EmptyString => (0, Some ErrSyntax)
  | String c0 rest =>
      let '(neg, s1) :=
        if Ascii.eqb c0 "+" then (false, rest)
        else if Ascii.eqb c0 "-" then (true, rest)
        else (false, s) in
      match ParseUint s1 with
      | (_, Some ErrSyntax) => (0, Some ErrSyntax)
      | (un, _) =>
          let cutoff := uint64 (Z.shiftl 1 (intSize - 1)) in
          if negb neg && (cutoff <=? un) then (int64 (cutoff - 1), Some ErrRange)
          else if neg && (cutoff <? un) then (int64 (- int64 cutoff), Some ErrRange)
          else
            let n := int64 un in
            (if neg then int64 (- n) else n, None)
      end
  end.

(** The fast path of [Atoi]: fewer than 19 bytes cannot overflow. *)
Fixpoint atoiLoop (s : string) (n : Z) : Z * option NumError :=
  match s with
  | EmptyString => (n, None)
  | String ch s' =>
      let ch := uint8 (byte ch - byte "0") in
      if 9 <? ch then (0, Some ErrSyntax)
      else atoiLoop s' (n * 10 + ch)
  end.

Definition Atoi (s : string) : Z * option NumError :=
  let sLen := Z.of_nat (String.length s) in
  if (0 <? sLen) && (sLen <? 19) then
    match s with
    | EmptyString => (0, Some ErrSyntax)
    | String c0 rest =>
        let signed := Ascii.eqb c0 "-" || Ascii.eqb c0 "+" in
        let s1 := if signed then rest else s in
        if signed && (Z.of_nat (String.length s1) <? 1) then (0, Some ErrSyntax)
        else
          match atoiLoop s1 0 with
          | (n, None) => (if Ascii.eqb c0 "-" then - n else n, None)
          | failed => failed
          end
    end
  else ParseInt s.

(** [%d] of [fmt.Sprintf]: the decimal digits, with a leading [-] for a
    negative number. *)
Definition Itoa (i : Z) : string := NilEmpty.string_of_int (Z.to_int i).

End strconv.

(** ** 4. The world outside the program

    Errors of the external collaborators are kept as their message
    ([err.Error()]); a call that can fail returns [inl err] or [inr v]. *)

Definition error : Type := string.

(** The Unicode case tables behind [strings.ToLower]. *)
Class Unicode := {
  mapUnicodeToLower : string -> string
}.

(** What a template is executed with (Go passes it as [any]). *)
Record PageData := mkPageData {
  PageData_Cars : list Car;
  PageData_Query : string
}.

Record DetailsPageData := mkDetailsPageData {
  MainCar : Car;
  Related : list Car
}.

Inductive TemplateData :=
| DataPage (data : PageData)
| DataDetails (data : DetailsPageData)
| DataCars (selectedCars : list Car).

(** The upstream API behind [http.Get], [encoding/json] and
    [html/template].  Every round trip and every template load may change
    the world, so two calls with the same arguments need not agree.
    [http_Get] gives a transport error or the status code and the body of
    the response; a decoder reads a body ([resp.Body]) into the records it
    is asked for, or fails. *)
Class Runtime := {
  World : Type;
  Body : Type;
  Template : Type;
  http_Get : string -> World -> (error + (Z * Body)) * World;
  decodeCars : Body -> error + list Car;
  decodeCategories : Body -> error + list Category;
  decodeManufacturers : Body -> error + list Manufacturer;
  decodeCar : Body -> error + Car;
  template_ParseFiles : string -> World -> (error + Template) * World;
  template_Execute : Template -> TemplateData -> World -> (string * option error) * World
}.

(** The state a handler runs in: the world and the lines logged so far. *)
Record State `{Runtime} := mkState {
  world : World;
  logged : list string
}.

Definition M `{Runtime} (A : Type) : Type := State -> A * State.

#[global] Instance M_ret `{Runtime} : MRet M := fun A a st => (a, st).
#[global] Instance M_bind `{Runtime} : MBind M :=
  fun A B f m st => let '(a, st') := m st in f a st'.

Definition liftWorld `{Runtime} {A} (f : World -> A * World) : M A :=
  fun st => let '(a, w) := f (world st) in (a, mkState _ w (logged st)).

(** [log.Println(prefix, err)]: the operands separated by a space (the
    date and time the logger puts in front are left out). *)
Definition log_Println `{Runtime} (prefix : string) (err : error) : M unit :=
  fun st => (tt, mkState _ (world st) (logged st ++ [prefix +:+ " " +:+ err])).

(** ** 5. Requests and responses *)

Record Request := mkRequest {
  URL_Path : string;
  URL_Query : gmap string (list string)
}.

(** [url.Values.Get]: the first value of the key, or the empty string. *)
Definition Values_Get (v : gmap string (list string)) (key : string) : string :=
  match v !! key with
  | Some (first :: _) => first
  | _ => ""
  end.

(** [v[key]]: all the values of the key; a missing key gives the nil slice. *)
Definition Values_index (v : gmap string (list string)) (key : string) : list string :=
  default [] (v !! key).

Record Response := mkResponse {
  StatusCode : Z;
  ResponseBody : string
}.

Definition StatusOK : Z := 200.
Definition StatusBadRequest : Z := 400.
Definition StatusNotFound : Z := 404.
Definition StatusInternalServerError : Z := 500.

(** [http.Error] writes the status and the message followed by a newline. *)
Definition http_Error (msg : string) (code : Z) : Response :=
  mkResponse code (msg +:+ String "010" "").

Definition http_NotFound : Response := http_Error "404 page not found" StatusNotFound.

(** ** 6. API client (main.go, lines 54-117) *)

Definition fetchCars `{Runtime} : M (error + list Car) :=
  resp ← liftWorld (http_Get "http://127.0.0.1:3000/api/models");
  match resp with
  | inl err => mret (inl err)
  | inr (_, body) => mret (decodeCars body)
  end.

Definition fetchCategories `{Runtime} : M (error + list Category) :=
  resp ← liftWorld (http_Get "http://127.0.0.1:3000/api/categories");
  match resp with
  | inl err => mret (inl err)
  | inr (_, body) => mret (decodeCategories body)
  end.

Definition fetchManufacturers `{Runtime} : M (error + list Manufacturer) :=
  resp ← liftWorld (http_Get "http://127.0.0.1:3000/api/manufacturers");
  match resp with
  | inl err => mret (inl err)
  | inr (_, body) => mret (decodeManufacturers body)
  end.

Definition fetchCarByID `{Runtime} (id : Z) : M (error + Car) :=
  let url := "http://127.0.0.1:3000/api/models/" +:+ strconv.Itoa id in
  resp ← liftWorld (http_Get url);
  match resp with
  | inl err => mret (inl err)
  | inr (status, body) =>
      if negb (status =? StatusOK)
      then mret (inl ("API returned status: " +:+ strconv.Itoa status))
      else mret (decodeCar body)
  end.

(** ** 7. HTTP handlers (main.go, lines 119-267) *)

(** [m[k]] on a [map[int]string]: a missing key gives the zero value. *)
Definition mapIndex (m : gmap Z string) (k : Z) : string := default "" (m !! k).

(** A discarded error leaves the nil slice ([categories, _ := ...]). *)
Definition orNil {A} (r : error + list A) : list A :=
  match r with
  | inr l => l
  | inl _ => []
  end.

(** B. Create Lookup Maps (lines 138-146). *)
Definition buildCatMap (categories : list Category) : gmap Z string :=
  fold_left (fun catMap c => <[Category_ID c := Category_Name c]> catMap) categories ∅.

Definition buildManMap (manufacturers : list Manufacturer) : gmap Z string :=
  fold_left (fun manMap m => <[Manufacturer_ID m := Manufacturer_Name m]> manMap)
            manufacturers ∅.

(** Search Match: Name OR Category OR Brand (lines 154-161). *)
Definition searchMatch `{Unicode} (query : string) (catMap manMap : gmap Z string)
    (car : Car) : bool :=
  let catName := strings.ToLower mapUnicodeToLower (mapIndex catMap (CategoryID car)) in
  let manName := strings.ToLower mapUnicodeToLower (mapIndex manMap (ManufacturerID car)) in
  let carName := strings.ToLower mapUnicodeToLower (Name car) in
  strings.Contains carName query
  || strings.Contains catName query
  || strings.Contains manName query.

(** C. Filter Logic (lines 148-167); [q] is [r.URL.Query().Get("q")]. *)
Definition filterLogic `{Unicode} (q : string) (cars : list Car)
    (catMap manMap : gmap Z string) : list Car :=
  let query := strings.ToLower mapUnicodeToLower q in
  if negb (String.eqb query "") then
    fold_left (fun filteredCars car =>
                 if searchMatch query catMap manMap car
                 then filteredCars ++ [car]
                 else filteredCars)
              cars []
  else cars.

Definition homeHandler `{Unicode} `{Runtime} (r : Request) : M Response :=
  if negb (String.eqb (URL_Path r) "/") then mret http_NotFound
  else
    cars ← fetchCars;
    match cars with
    | inl err =>
        _ ← log_Println "Error fetching cars:" err;
        mret (http_Error "Failed to load cars. Is Node running?" StatusInternalServerError)
    | inr cars =>
        categories ← fetchCategories;
        manufacturers ← fetchManufacturers;
        let catMap := buildCatMap (orNil categories) in
        let manMap := buildManMap (orNil manufacturers) in
        let filteredCars := filterLogic (Values_Get (URL_Query r) "q") cars catMap manMap in
        let data := mkPageData filteredCars (Values_Get (URL_Query r) "q") in
        tmpl ← liftWorld (template_ParseFiles "templates/index.html");
        match tmpl with
        | inl err =>
            _ ← log_Println "Template error:" err;
            mret (http_Error "Template error" StatusInternalServerError)
        | inr tmpl =>
            out ← liftWorld (template_Execute tmpl (DataPage data));
            mret (mkResponse StatusOK (fst out))
        end
    end.

(** 3. Recommendation Logic (lines 213-222): the loop over [allCars],
    started with the [related] collected so far.  It returns [related]
    together with the part of [allCars] the loop has not visited when it
    ends: nothing when the range is exhausted, the cars after the [break]
    otherwise. *)
Fixpoint relatedLoop (mainCar : Car) (allCars related : list Car) : list Car * list Car :=
  match allCars with
  | [] => (related, [])
  | c :: rest =>
      let related :=
        if (CategoryID c =? CategoryID mainCar) && negb (ID c =? ID mainCar)
        then related ++ [c]
        else related in
      if (3 <=? length related)%nat then (related, rest)
      else relatedLoop mainCar rest related
  end.

(** [allCars] is [None] for the nil slice a failed [fetchCars] leaves,
    which the guard [allCars != nil] keeps the loop away from. *)
Definition recommend (mainCar : Car) (allCars : option (list Car)) : list Car :=
  match allCars with
  | Some allCars => fst (relatedLoop mainCar allCars [])
  | None => []
  end.

Definition detailsHandler `{Runtime} (r : Request) : M Response :=
  let idStr := Values_Get (URL_Query r) "id" in
  if String.eqb idStr "" then mret (http_Error "ID is required" StatusBadRequest)
  else
    match strconv.Atoi idStr with
    | (_, Some _) => mret (http_Error "Invalid ID" StatusBadRequest)
    | (id, None) =>
        mainCar ← fetchCarByID id;
        match mainCar with
        | inl _ => mret (http_Error "Car not found" StatusNotFound)
        | inr mainCar =>
            fetched ← fetchCars;
            allCars ← match fetched with
                      | inl err =>
                          _ ← log_Println "Could not fetch cars for recommendations:" err;
                          mret None
                      | inr cars => mret (Some cars)
                      end;
            let related := recommend mainCar allCars in
            let data := mkDetailsPageData mainCar related in
            tmpl ← liftWorld (template_ParseFiles "templates/details.html");
            match tmpl with
            | inl err =>
                _ ← log_Println "Template error:" err;
                mret (http_Error "Template error" StatusInternalServerError)
            | inr tmpl =>
                out ← liftWorld (template_Execute tmpl (DataDetails data));
                mret (mkResponse StatusOK (fst out))
            end
        end
    end.

(** The loop over the [id] parameters (lines 252-258). *)
Fixpoint selectLoop `{Runtime} (ids : list string) (selectedCars : list Car)
    : M (list Car) :=
  match ids with
  | [] => mret selectedCars
  | idStr :: ids =>
      let id := fst (strconv.Atoi idStr) in
      car ← fetchCarByID id;
      selectLoop ids (match car with
                      | inr car => selectedCars ++ [car]
                      | inl _ => selectedCars
                      end)
  end.

Definition compareHandler `{Runtime} (r : Request) : M Response :=
  let ids := Values_index (URL_Query r) "id" in
  if (length ids <? 2)%nat
  then mret (http_Error "Please select at least 2 cars to compare." StatusBadRequest)
  else
    selectedCars ← selectLoop ids [];
    tmpl ← liftWorld (template_ParseFiles "templates/compare.html");
    match tmpl with
    | inl err =>
        _ ← log_Println "Template error:" err;
        mret (http_Error "Template error" StatusInternalServerError)
    | inr tmpl =>
        out ← liftWorld (template_Execute tmpl (DataCars selectedCars));
        mret (mkResponse StatusOK (fst out))
    end.

(** ** 8. The vocabulary of the specification *)

(** [sub] occurs in [s]. *)
Definition Substring (sub s : string) : Prop := exists a b, s = a +:+ sub +:+ b.

(** The lower-cased query occurs in the lower-cased name, resolved
    category name or resolved manufacturer name of the car; a reference
    that is absent from its lookup map resolves to the empty string. *)
Definition resolve (names : gmap Z string) (ref : Z) : string :=
  match names !! ref with
  | Some name => name
  | None => ""
  end.

Definition QueryMatches `{Unicode} (q : string) (catMap manMap : gmap Z string)
    (car : Car) : Prop :=
  let lc := strings.ToLower mapUnicodeToLower in
  Substring (lc q) (lc (Name car))
  \/ Substring (lc q) (lc (resolve catMap (CategoryID car)))
  \/ Substring (lc q) (lc (resolve manMap (ManufacturerID car))).

(** A car qualifies as a recommendation for [mainCar]: same category
    reference, different identifier. *)
Definition Qualifies (mainCar c : Car) : Prop :=
  CategoryID c = CategoryID mainCar /\ ID c <> ID mainCar.

#[global] Instance Qualifies_dec mainCar c : Decision (Qualifies mainCar c).
Proof. unfold Qualifies. apply _. Defined.

(** A numeric parameter: an optional sign and then decimal digits, at
    least one. *)
Definition isDigit (c : ascii) : bool :=
  (strconv.byte "0" <=? strconv.byte c) && (strconv.byte c <=? strconv.byte "9").

Fixpoint allDigits (s : string) : bool :=
  match s with
  | EmptyString => true
  | String c s' => isDigit c && allDigits s'
  end.

Definition unsignedNumeric (s : string) : bool :=
  negb (String.eqb s "") && allDigits s.

Definition numeric (s : string) : bool :=
  match s with
  | String c rest =>
      if Ascii.eqb c "+" || Ascii.eqb c "-" then unsignedNumeric rest
      else unsignedNumeric s
  | EmptyString => false
  end.

(** The bounds of [int]. *)
Definition maxInt : Z := 9223372036854775807.
Definition minInt : Z := -9223372036854775808.

(** "Render the page with the data": load the template, answer 500 when it
    cannot be loaded, otherwise send what executing it writes. *)
Definition renderPage `{Runtime} (path : string) (data : TemplateData) : M Response :=
  tmpl ← liftWorld (template_ParseFiles path);
  match tmpl with
  | inl err =>
      _ ← log_Println "Template error:" err;
      mret (http_Error "Template error" StatusInternalServerError)
  | inr tmpl =>
      out ← liftWorld (template_Execute tmpl data);
      mret (mkResponse StatusOK (fst out))
  end.

(** "For each id, attempt the fetch": one result per id, in the order of
    the ids. *)
Definition fetchEach `{Runtime} (ids : list string) : M (list (error + Car)) :=
  mapM (fun idStr => fetchCarByID (fst (strconv.Atoi idStr))) ids.

(** The fetches that succeeded, the failed ones left out. *)
Definition succeeded (results : list (error + Car)) : list Car :=
  omap (fun r => match r with inr car => Some car | inl _ => None end) results.

(** The single-vehicle lookup of [id] fails in world [w]: a transport
    error, a status other than 200, or a body that does not decode. *)
Definition LookupFails `{Runtime} (id : Z) (w : World) : Prop :=
  match fst (http_Get ("http://127.0.0.1:3000/api/models/" +:+ strconv.Itoa id) w) with
  | inl _ => True
  | inr (status, body) => status <> StatusOK \/ exists err, decodeCar body = inl err
  end.

(** The URL [fetchCarByID] asks for. *)
Definition carURL (id : Z) : string :=
  "http://127.0.0.1:3000/api/models/" +:+ strconv.Itoa id.

(** The number a run of decimal digits stands for, read behind the number
    [n] of the digits that came before. *)
Fixpoint digitsValue (d : Decimal.uint) (n : Z) : Z :=
  match d with
  | Decimal.Nil => n
  | Decimal.D0 d => digitsValue d (n * 10 + 0)
  | Decimal.D1 d => digitsValue d (n * 10 + 1)
  | Decimal.D2 d => digitsValue d (n * 10 + 2)
  | Decimal.D3 d => digitsValue d (n * 10 + 3)
  | Decimal.D4 d => digitsValue d (n * 10 + 4)
  | Decimal.D5 d => digitsValue d (n * 10 + 5)
  | Decimal.D6 d => digitsValue d (n * 10 + 6)
  | Decimal.D7 d => digitsValue d (n * 10 + 7)
  | Decimal.D8 d => digitsValue d (n * 10 + 8)
  | Decimal.D9 d => digitsValue d (n * 10 + 9)
  end.

(** The number a string of decimal digits stands for, read behind the
    number [n] of the digits that came before, and the number a numeric
    string (digits behind an optional sign) stands for. *)
Fixpoint decimalValue (s : string) (n : Z) : Z :=
  match s with
  | EmptyString => n
  | String c s' => decimalValue s' (n * 10 + (strconv.byte c - strconv.byte "0"))
  end.

Definition signedValue (s : string) : Z :=
  match s with
  | String c rest =>
      if Ascii.eqb c "+" then decimalValue rest 0
      else if Ascii.eqb c "-" then - decimalValue rest 0
      else decimalValue s 0
  | EmptyString => 0
  end.

Definition fitsInt (z : Z) : bool := (minInt <=? z) && (z <=? maxInt).

(** The parts of an id that is not numeric: whether it starts with a
    minus sign, what follows its optional sign, and the digits a string
    starts with, up to its first byte that is not a digit. *)
Definition isNegative (s : string) : bool :=
  match s with
  | String c _ => Ascii.eqb c "-"
  | EmptyString => false
  end.

Definition unsignedPart (s : string) : string :=
  match s with
  | String c rest => if Ascii.eqb c "+" || Ascii.eqb c "-" then rest else s
  | EmptyString => EmptyString
  end.

Fixpoint leadingDigits (s : string) : string :=
  match s with
  | String c s' => if isDigit c then String c (leadingDigits s') else EmptyString
  | EmptyString => EmptyString
  end.

(** The lower-cased query occurs in the lower-cased name of the car. *)
Definition NameMatches `{Unicode} (q : string) (car : Car) : Prop :=
  Substring (strings.ToLower mapUnicodeToLower q)
            (strings.ToLower mapUnicodeToLower (Name car)).

(** ** 9. A small upstream to run the handlers against

    The world is the list of URLs requested so far.  The upstream serves
    a fixed catalogue; switches make the list endpoint, the template
    files or the template execution fail. *)

Module Demo.

Inductive body :=
| CarsBody (cars : list Car)
| CategoriesBody (categories : list Category)
| ManufacturersBody (manufacturers : list Manufacturer)
| CarBody (car : Car)
| ErrorBody.

Record config := mkConfig {
  catalogue : list Car;
  categories : list Category;
  manufacturers : list Manufacturer;
  listDown : bool;
  templatesMissing : bool;
  executeFails : bool
}.

Definition get (cfg : config) (url : string) (w : list string)
    : (error + (Z * body)) * list string :=
  let base := "http://127.0.0.1:3000/api/" in
  let resp :=
    if String.eqb url (base +:+ "models") then
      if listDown cfg then inl "connection reset" else inr (200, CarsBody (catalogue cfg))
    else if String.eqb url (base +:+ "categories") then
      inr (200, CategoriesBody (categories cfg))
    else if String.eqb url (base +:+ "manufacturers") then
      inr (200, ManufacturersBody (manufacturers cfg))
    else
      match List.find (fun c => String.eqb url (base +:+ "models/" +:+ strconv.Itoa (ID c)))
                      (catalogue cfg) with
      | Some c => inr (200, CarBody c)
      | None => inr (404, ErrorBody)
      end in
  (resp, w ++ [url]).

Definition names (cars : list Car) : string :=
  fold_right (fun c acc => Name c +:+ ";" +:+ acc) "" cars.

Definition show (data : TemplateData) : string :=
  match data with
  | DataPage d => "q=" +:+ PageData_Query d +:+ " cars=" +:+ names (PageData_Cars d)
  | DataDetails d => "car=" +:+ Name (MainCar d) +:+ " related=" +:+ names (Related d)
  | DataCars l => "compare=" +:+ names l
  end.

#[local] Instance runtime (cfg : config) : Runtime := {|
  World := list string;
  Body := body;
  Template := string;
  http_Get := get cfg;
  decodeCars b := match b with CarsBody l => inr l | _ => inl "cannot unmarshal" end;
  decodeCategories b := match b with CategoriesBody l => inr l | _ => inl "cannot unmarshal" end;
  decodeManufacturers b :=
    match b with ManufacturersBody l => inr l | _ => inl "cannot unmarshal" end;
  decodeCar b := match b with CarBody c => inr c | _ => inl "cannot unmarshal" end;
  template_ParseFiles path w :=
    (if templatesMissing cfg then inl ("open " +:+ path +:+ ": no such file") else inr path, w);
  template_Execute tmpl data w :=
    (if executeFails cfg then ("", Some "template: execution failed")
     else (tmpl +:+ " " +:+ show data, None), w)
|}.

#[local] Instance unicode : Unicode := {| mapUnicodeToLower := fun s => s |}.

Definition spec := mkSpecification "V6" 300 "Automatic" "AWD".

Definition car1 := mkCar 1 "Model X" 5 10 2020 spec "x.png".
Definition car2 := mkCar 2 "Model Y" 6 10 2021 spec "y.png".
Definition car3 := mkCar 3 "Other" 5 20 2019 spec "o.png".
Definition car4 := mkCar 4 "Roadster" 5 10 2022 spec "r.png".
Definition car5 := mkCar 5 "Cyber" 5 10 2023 spec "c.png".
Definition car6 := mkCar 6 "Semi" 7 10 2024 spec "s.png".

Definition healthy : config :=
  mkConfig [car1; car2; car3; car4; car5; car6]
           [mkCategory 10 "SUV"; mkCategory 20 "Sedan"]
           [mkManufacturer 5 "Tesla"; mkManufacturer 6 "Audi"]
           false false false.

Definition withListDown : config :=
  mkConfig (catalogue healthy) (categories healthy) (manufacturers healthy) true false false.

Definition withoutTemplates : config :=
  mkConfig (catalogue healthy) (categories healthy) (manufacturers healthy) false true false.

Definition withFailingExecute : config :=
  mkConfig (catalogue healthy) (categories healthy) (manufacturers healthy) false false true.

Definition start (cfg : config) : @State (runtime cfg) := @mkState (runtime cfg) [] [].

Definition request (path : string) (key : string) (values : list string) : Request :=
  mkRequest path {[ key := values ]}.

End Demo.

(** An upstream of which only the list of cars can be reached. *)

Module Outage.

Definition get (url : string) (w : list string)
    : (error + (Z * Demo.body)) * list string :=
  (if String.eqb url "http://127.0.0.1:3000/api/models"
   then inr (200, Demo.CarsBody [Demo.car1; Demo.car2; Demo.car3])
   else inl "connection refused",
   w ++ [url]).

#[local] Instance runtime : Runtime := {|
  World := list string;
  Body := Demo.body;
  Template := string;
  http_Get := get;
  decodeCars := @decodeCars (Demo.runtime Demo.healthy);
  decodeCategories := @decodeCategories (Demo.runtime Demo.healthy);
  decodeManufacturers := @decodeManufacturers (Demo.runtime Demo.healthy);
  decodeCar := @decodeCar (Demo.runtime Demo.healthy);
  template_ParseFiles path w := (inr path, w);
  template_Execute tmpl data w := ((tmpl +:+ " " +:+ Demo.show data, None), w)
|}.

Definition start : @State runtime := @mkState runtime [] [].

End Outage.

(** * Properties *)

(** ** Strings *)

#[local] Arguments String.append !_ _ / : simpl nomatch.

Lemma HasPrefix_spec (s prefix : string) :
  strings.HasPrefix s prefix = true <-> exists b, s = prefix +:+ b.
Proof.
  revert s. induction prefix as [|p prefix IH]; intros s; simpl.
  - split; [intros _; by exists s | intros _; reflexivity].
  - destruct s as [|c s]; simpl.
    + split; [done | intros [b Hb]; discriminate].
    + destruct (Ascii.eqb_spec c p) as [->|Hne].
      * rewrite IH. split; intros [b Hb]; exists b; simpl in *; congruence.
      * split; [done | intros [b Hb]; simpl in Hb; congruence].
Qed.

Lemma Substring_of_prefix (s sub : string) :
  strings.HasPrefix s sub = true -> Substring sub s.
Proof. intros [b ->]%HasPrefix_spec. by exists "", b. Qed.

Lemma Substring_step (c : ascii) (s sub : string) :
  strings.HasPrefix (String c s) sub = false ->
  Substring sub (String c s) <-> Substring sub s.
Proof.
  intros Hpre. split.
  - intros [[|c' a] [b Hab]]; simpl in Hab.
    + assert (strings.HasPrefix (String c s) sub = true) by (apply HasPrefix_spec; eauto).
      congruence.
    + exists a, b. congruence.
  - intros (a & b & ->). by exists (String c a), b.
Qed.

Lemma indexFrom_found (i : Z) (s sub : string) :
  0 <= i -> 0 <= strings.indexFrom i s sub <-> Substring sub s.
Proof.
  revert i. induction s as [|c s IH]; intros i Hi; simpl.
  - destruct sub as [|p sub]; simpl.
    + split; [intros _; by exists "", "" | lia].
    + split; [lia | intros ([|? a] & b & Hab); discriminate].
  - destruct (strings.HasPrefix (String c s) sub) eqn:Hpre.
    + split; [intros _; by apply Substring_of_prefix | lia].
    + rewrite (Substring_step _ _ _ Hpre). apply IH. lia.
Qed.

Lemma Contains_Substring (s sub : string) :
  strings.Contains s sub = true <-> Substring sub s.
Proof.
  unfold strings.Contains, strings.Index.
  rewrite Z.leb_le. by apply indexFrom_found.
Qed.

#[global] Instance Substring_dec (sub s : string) : Decision (Substring sub s).
Proof.
  refine (cast_if (decide (strings.Contains s sub = true)));
    by rewrite <- Contains_Substring.
Defined.

(** ** The search filter *)

Section Search.
Context `{Unicode}.

#[global] Instance QueryMatches_dec q catMap manMap car :
  Decision (QueryMatches q catMap manMap car).
Proof. unfold QueryMatches. apply _. Defined.

Lemma ToLower_empty : strings.ToLower mapUnicodeToLower "" = "".
Proof. reflexivity. Qed.

Lemma mapIndex_resolve (names : gmap Z string) (ref : Z) :
  mapIndex names ref = resolve names ref.
Proof. unfold mapIndex, resolve. by destruct (names !! ref). Qed.

Lemma searchMatch_QueryMatches q catMap manMap car :
  searchMatch (strings.ToLower mapUnicodeToLower q) catMap manMap car = true
  <-> QueryMatches q catMap manMap car.
Proof.
  unfold searchMatch, QueryMatches.
  rewrite !orb_true_iff, !Contains_Substring, !mapIndex_resolve. tauto.
Qed.

Lemma filter_loop_acc {A} (keep : A -> bool) (P : A -> Prop) `{!forall x, Decision (P x)}
    (l acc : list A) :
  (forall x, keep x = true <-> P x) ->
  fold_left (fun out x => if keep x then out ++ [x] else out) l acc = acc ++ filter P l.
Proof.
  intros Hkeep. revert acc. induction l as [|x l IH]; intros acc; simpl.
  - by rewrite app_nil_r.
  - rewrite IH, filter_cons. destruct (keep x) eqn:Hx.
    + rewrite decide_True by (by apply Hkeep). by rewrite <- app_assoc.
    + rewrite decide_False; [done|]. rewrite <- Hkeep. congruence.
Qed.

Lemma filter_all {A} (P : A -> Prop) `{!forall x, Decision (P x)} (l : list A) :
  (forall x, P x) -> filter P l = l.
Proof.
  intros HP. induction l as [|x l IH]; [done|].
  rewrite filter_cons, decide_True by done. by rewrite IH.
Qed.

(** The filter agrees with the specification for every query, empty or
    not: the empty string occurs in every name. *)
Lemma filterLogic_filter q cars catMap manMap :
  filterLogic q cars catMap manMap = filter (QueryMatches q catMap manMap) cars.
Proof.
  unfold filterLogic.
  destruct (String.eqb_spec (strings.ToLower mapUnicodeToLower q) "") as [Hq|Hq]; simpl.
  - symmetry. apply filter_all. intros car. left.
    rewrite Hq. by exists "", (strings.ToLower mapUnicodeToLower (Name car)).
  - apply (filter_loop_acc _ (QueryMatches q catMap manMap) cars []).
    intros car. apply searchMatch_QueryMatches.
Qed.

(** C1: for a non-empty query the search filter returns exactly the cars
    for which the lower-cased query occurs in the lower-cased name,
    resolved category name or resolved manufacturer name (an unresolved
    reference counting as the empty string), in the order of the upstream
    list. *)
Theorem C1_search_filter (q : string) (cars : list Car)
    (catMap manMap : gmap Z string) :
  q <> "" ->
  filterLogic q cars catMap manMap = filter (QueryMatches q catMap manMap) cars.
Proof. intros _. apply filterLogic_filter. Qed.

(** C9: on the empty query the filter is the identity. *)
Theorem C9_empty_query_identity (cars : list Car)
    (catMap manMap : gmap Z string) :
  filterLogic "" cars catMap manMap = cars.
Proof. reflexivity. Qed.

End Search.

(** ** Recommendations *)

Lemma related_step (mainCar c : Car) (related : list Car) :
  (if (CategoryID c =? CategoryID mainCar) && negb (ID c =? ID mainCar)
   then related ++ [c] else related)
  = related ++ filter (Qualifies mainCar) [c].
Proof.
  rewrite filter_cons, filter_nil. unfold Qualifies.
  destruct (Z.eqb_spec (CategoryID c) (CategoryID mainCar)),
           (Z.eqb_spec (ID c) (ID mainCar)); simpl;
    (rewrite decide_True by tauto) || (rewrite decide_False by tauto);
    by rewrite ?app_nil_r.
Qed.

Lemma filter_singleton_length {A} (P : A -> Prop) `{!forall x, Decision (P x)} (x : A) :
  (length (filter P [x]) <= 1)%nat.
Proof. rewrite filter_cons, filter_nil. case_decide; simpl; lia. Qed.

Lemma relatedLoop_cons (mainCar c : Car) (rest related : list Car) :
  relatedLoop mainCar (c :: rest) related
  = if (3 <=? length (related ++ filter (Qualifies mainCar) [c]))%nat
    then (related ++ filter (Qualifies mainCar) [c], rest)
    else relatedLoop mainCar rest (related ++ filter (Qualifies mainCar) [c]).
Proof. rewrite <- related_step. reflexivity. Qed.

(** What the loop returns, started with fewer than three cars. *)
Lemma relatedLoop_fst (mainCar : Car) (allCars related : list Car) :
  (length related < 3)%nat ->
  fst (relatedLoop mainCar allCars related)
  = related ++ take (3 - length related) (filter (Qualifies mainCar) allCars).
Proof.
  revert related. induction allCars as [|c rest IH]; intros related Hlen.
  - simpl. by rewrite filter_nil, take_nil, app_nil_r.
  - rewrite relatedLoop_cons.
    change (c :: rest) with ([c] ++ rest). rewrite filter_app.
    pose proof (filter_singleton_length (Qualifies mainCar) c) as Hone.
    destruct (Nat.leb_spec 3 (length (related ++ filter (Qualifies mainCar) [c]))) as [Hfull|Hmore];
      simpl; rewrite length_app in *.
    + rewrite take_app_le by lia. rewrite take_ge by lia. done.
    + rewrite IH by (rewrite length_app; lia).
      rewrite length_app, <- app_assoc. f_equal.
      rewrite take_app_ge by lia. do 2 f_equal. lia.
Qed.

(** Where the loop stops. *)
Lemma relatedLoop_scan (mainCar : Car) (allCars related : list Car) :
  (length related < 3)%nat ->
  exists visited,
    allCars = visited ++ snd (relatedLoop mainCar allCars related)
    /\ fst (relatedLoop mainCar allCars related)
       = related ++ filter (Qualifies mainCar) visited
    /\ ((length (fst (relatedLoop mainCar allCars related)) < 3)%nat ->
        snd (relatedLoop mainCar allCars related) = [])
    /\ (forall pre suf, visited = pre ++ suf -> suf <> [] ->
        (length (related ++ filter (Qualifies mainCar) pre) < 3)%nat).
Proof.
  revert related. induction allCars as [|c rest IH]; intros related Hlen.
  - exists []. simpl. rewrite filter_nil, app_nil_r. split_and!; [done..|].
    intros pre suf Hsplit Hsuf. symmetry in Hsplit.
    apply app_eq_nil in Hsplit as [_ ?]. done.
  - rewrite relatedLoop_cons.
    destruct (Nat.leb_spec 3 (length (related ++ filter (Qualifies mainCar) [c]))) as [Hfull|Hmore];
      simpl.
    + exists [c]. split_and!; [done|done|lia|].
      intros [|x pre] suf Hsplit Hsuf.
      * by rewrite filter_nil, app_nil_r.
      * injection Hsplit as _ Hnil. symmetry in Hnil.
        apply app_eq_nil in Hnil as [_ ?]. done.
    + destruct (IH _ Hmore) as (visited & Hall & Hfst & Hshort & Hpre).
      exists (c :: visited). split_and!.
      * simpl. by rewrite <- Hall.
      * rewrite Hfst, <- app_assoc. f_equal.
        change (c :: visited) with ([c] ++ visited). by rewrite filter_app.
      * done.
      * intros [|x pre] suf Hsplit Hsuf.
        -- by rewrite filter_nil, app_nil_r.
        -- injection Hsplit as -> Hsplit.
           specialize (Hpre pre suf Hsplit Hsuf).
           change (x :: pre) with ([x] ++ pre). by rewrite filter_app, app_assoc.
Qed.

Lemma recommend_take (mainCar : Car) (allCars : list Car) :
  recommend mainCar (Some allCars) = take 3 (filter (Qualifies mainCar) allCars).
Proof. unfold recommend. by rewrite relatedLoop_fst by (simpl; lia). Qed.

(** C2: the recommendation list never holds a car with the identifier of
    the main car, every member has the main car's categoryId, and the
    list has at most 3 members; this holds whether or not the list of all
    cars could be fetched. *)
Theorem C2_recommendation_members (mainCar : Car) (allCars : option (list Car)) :
  Forall (fun c => ID c <> ID mainCar /\ CategoryID c = CategoryID mainCar)
         (recommend mainCar allCars)
  /\ (length (recommend mainCar allCars) <= 3)%nat.
Proof.
  destruct allCars as [allCars|]; [|split; [constructor | simpl; lia]].
  rewrite recommend_take. split.
  - apply Forall_take, Forall_forall. intros c [Hq _]%list_elem_of_filter.
    destruct Hq. done.
  - rewrite length_take. lia.
Qed.

(** C3: the recommendation list is the first at most 3 qualifying cars in
    upstream order, and the scan stops as soon as 3 are collected: the
    visited part of the list is followed by an unvisited rest, the scan
    runs to the end only while fewer than 3 are collected, and no visited
    car comes after the third one collected. *)
Theorem C3_recommendation_prefix_stop (mainCar : Car) (allCars : list Car) :
  recommend mainCar (Some allCars) = take 3 (filter (Qualifies mainCar) allCars)
  /\ exists visited,
      allCars = visited ++ snd (relatedLoop mainCar allCars [])
      /\ recommend mainCar (Some allCars) = filter (Qualifies mainCar) visited
      /\ ((length (recommend mainCar (Some allCars)) < 3)%nat ->
          snd (relatedLoop mainCar allCars []) = [])
      /\ (forall pre suf, visited = pre ++ suf -> suf <> [] ->
          (length (filter (Qualifies mainCar) pre) < 3)%nat).
Proof.
  split; [apply recommend_take|].
  destruct (relatedLoop_scan mainCar allCars []) as (visited & Hall & Hfst & Hshort & Hpre);
    [simpl; lia|].
  exists visited. unfold recommend. split_and!; done.
Qed.

(** ** Parsing an id *)

(** The byte tests of the two loops, checked on all 256 bytes. *)
Lemma digit_fast (c : ascii) :
  (9 <? strconv.uint8 (strconv.byte c - strconv.byte "0")) = negb (isDigit c).
Proof. destruct c as [[] [] [] [] [] [] [] []]; reflexivity. Qed.

Lemma digit_class (c : ascii) :
  match strconv.digit c with
  | Some d => if isDigit c then d <? 10 else 10 <=? d
  | None => negb (isDigit c)
  end = true.
Proof. destruct c as [[] [] [] [] [] [] [] []]; reflexivity. Qed.

Lemma atoiLoop_cons (c : ascii) (s : string) (n : Z) :
  strconv.atoiLoop (String c s) n
  = if 9 <? strconv.uint8 (strconv.byte c - strconv.byte "0")
    then (0, Some strconv.ErrSyntax)
    else strconv.atoiLoop s (n * 10 + strconv.uint8 (strconv.byte c - strconv.byte "0")).
Proof. reflexivity. Qed.

Lemma atoiLoop_cases (s : string) (n : Z) :
  ((exists v, strconv.atoiLoop s n = (v, None)) /\ allDigits s = true)
  \/ strconv.atoiLoop s n = (0, Some strconv.ErrSyntax).
Proof.
  revert n. induction s as [|c s IH]; intros n.
  - left. split; [by exists n | reflexivity].
  - rewrite atoiLoop_cons, digit_fast.
    change (allDigits (String c s)) with (isDigit c && allDigits s).
    destruct (isDigit c); simpl; [apply IH | by right].
Qed.

Lemma parseUintLoop_cons (c : ascii) (s : string) (n : Z) :
  strconv.parseUintLoop (String c s) n
  = match strconv.digit c with
    | None => (0, Some strconv.ErrSyntax)
    | Some d =>
        if 10 <=? d then (0, Some strconv.ErrSyntax)
        else if strconv.maxUint64 / 10 + 1 <=? n
        then (strconv.maxUint64, Some strconv.ErrRange)
        else if (strconv.uint64 (strconv.uint64 (n * 10) + d) <? strconv.uint64 (n * 10))
                || (strconv.maxUint64 <? strconv.uint64 (strconv.uint64 (n * 10) + d))
        then (strconv.maxUint64, Some strconv.ErrRange)
        else strconv.parseUintLoop s (strconv.uint64 (strconv.uint64 (n * 10) + d))
    end.
Proof. reflexivity. Qed.

Lemma parseUintLoop_cases (s : string) (n : Z) :
  ((exists v, strconv.parseUintLoop s n = (v, None)) /\ allDigits s = true)
  \/ strconv.parseUintLoop s n = (0, Some strconv.ErrSyntax)
  \/ strconv.parseUintLoop s n = (strconv.maxUint64, Some strconv.ErrRange).
Proof.
  revert n. induction s as [|c s IH]; intros n.
  - left. split; [by exists n | reflexivity].
  - rewrite parseUintLoop_cons.
    change (allDigits (String c s)) with (isDigit c && allDigits s).
    pose proof (digit_class c) as Hclass.
    destruct (strconv.digit c) as [d|]; [|by right; left].
    destruct (10 <=? d) eqn:Hbase; [by right; left|].
    destruct (isDigit c); [|congruence]. simpl.
    destruct (_ <=? n); [by right; right|].
    destruct (_ || _); [by right; right|].
    apply IH.
Qed.

Lemma ParseUint_cases (s : string) :
  ((exists v, strconv.ParseUint s = (v, None)) /\ unsignedNumeric s = true)
  \/ strconv.ParseUint s = (0, Some strconv.ErrSyntax)
  \/ strconv.ParseUint s = (strconv.maxUint64, Some strconv.ErrRange).
Proof.
  destruct s as [|c s]; [by right; left|].
  apply (parseUintLoop_cases (String c s) 0).
Qed.

(** After the sign is taken off. *)
Lemma ParseInt_signed (neg : bool) (s1 : string) :
  unsignedNumeric s1 = false ->
  let result :=
    match strconv.ParseUint s1 with
    | (_, Some strconv.ErrSyntax) => (0, Some strconv.ErrSyntax)
    | (un, _) =>
        let cutoff := strconv.uint64 (Z.shiftl 1 (strconv.intSize - 1)) in
        if negb neg && (cutoff <=? un)
        then (strconv.int64 (cutoff - 1), Some strconv.ErrRange)
        else if neg && (cutoff <? un)
        then (strconv.int64 (- strconv.int64 cutoff), Some strconv.ErrRange)
        else (if neg then strconv.int64 (- strconv.int64 un) else strconv.int64 un, None)
    end in
  result = (0, Some strconv.ErrSyntax)
  \/ result = (maxInt, Some strconv.ErrRange)
  \/ result = (minInt, Some strconv.ErrRange).
Proof.
  intros Hnum.
  destruct (ParseUint_cases s1) as [[_ Hok]|[->| ->]]; [congruence | by left |].
  destruct neg; [right; right | right; left]; reflexivity.
Qed.

Lemma ParseInt_cases (s : string) :
  numeric s = false ->
  strconv.ParseInt s = (0, Some strconv.ErrSyntax)
  \/ strconv.ParseInt s = (maxInt, Some strconv.ErrRange)
  \/ strconv.ParseInt s = (minInt, Some strconv.ErrRange).
Proof.
  destruct s as [|c0 rest]; [by left|].
  unfold numeric, strconv.ParseInt.
  destruct (Ascii.eqb c0 "+"); simpl; [apply (ParseInt_signed false)|].
  destruct (Ascii.eqb c0 "-"); simpl; [apply (ParseInt_signed true)|].
  apply (ParseInt_signed false).
Qed.

Lemma unsignedNumeric_cons (c : ascii) (s : string) :
  unsignedNumeric (String c s) = allDigits (String c s).
Proof. reflexivity. Qed.

(** An id that is not numeric never parses: [Atoi] reports a syntax error
    and returns 0, or, on the slow path only, a range error and the
    nearest bound of [int]. *)
Lemma Atoi_not_numeric (s : string) :
  numeric s = false ->
  strconv.Atoi s = (0, Some strconv.ErrSyntax)
  \/ ((19 <= String.length s)%nat
      /\ (strconv.Atoi s = (maxInt, Some strconv.ErrRange)
          \/ strconv.Atoi s = (minInt, Some strconv.ErrRange))).
Proof.
  intros Hnum. unfold strconv.Atoi.
  destruct ((0 <? Z.of_nat (String.length s)) && (Z.of_nat (String.length s) <? 19))
    eqn:Hfast.
  - destruct s as [|c0 rest]; [by left|]. left.
    revert Hnum. unfold numeric.
    destruct (Ascii.eqb c0 "-") eqn:Hminus, (Ascii.eqb c0 "+") eqn:Hplus;
      cbv beta iota zeta delta [orb andb]; intros Hnum.
    all: try (destruct rest as [|c1 rest]; [reflexivity|];
              destruct (Z.ltb_spec (Z.of_nat (String.length (String c1 rest))) 1);
              [simpl String.length in *; lia|]).
    all: rewrite unsignedNumeric_cons in Hnum.
    all: match goal with
         | |- context [strconv.atoiLoop ?t 0] =>
             destruct (atoiLoop_cases t 0) as [[_ Hok]|Hbad];
               [congruence | by rewrite Hbad]
         end.
  - destruct s as [|c0 rest]; [by left|].
    destruct (ParseInt_cases (String c0 rest) Hnum) as [->|Hrange]; [by left|].
    right. split; [|done].
    apply andb_false_iff in Hfast. simpl String.length in *.
    destruct Hfast as [Hfast|Hfast]; apply Z.ltb_ge in Hfast; lia.
Qed.

(** ** Running a handler *)

Section Handlers.
Context `{Unicode} `{Runtime}.

Ltac run := cbv beta delta [mbind M_bind mret M_ret].

Lemma run_bind {A B} (m : M A) (f : A -> M B) (st : State) :
  (m ≫= f) st = let '(a, st') := m st in f a st'.
Proof. reflexivity. Qed.

Lemma renderPage_run (path : string) (data : TemplateData) (st : State) :
  renderPage path data st
  = match template_ParseFiles path (world st) with
    | (inl err, w) =>
        (http_Error "Template error" StatusInternalServerError,
         mkState _ w (logged st ++ ["Template error: " +:+ err]))
    | (inr tmpl, w) =>
        (mkResponse StatusOK (fst (fst (template_Execute tmpl data w))),
         mkState _ (snd (template_Execute tmpl data w)) (logged st))
    end.
Proof.
  unfold renderPage, liftWorld, log_Println. run.
  destruct (template_ParseFiles path (world st)) as [[err|tmpl] w]; [reflexivity|].
  simpl. by destruct (template_Execute tmpl data w).
Qed.

Lemma renderPage_status (path : string) (data : TemplateData) (st : State) :
  StatusCode (fst (renderPage path data st)) = StatusInternalServerError
  \/ StatusCode (fst (renderPage path data st)) = StatusOK.
Proof.
  rewrite renderPage_run.
  destruct (template_ParseFiles path (world st)) as [[err|tmpl] w]; simpl; auto.
Qed.

Lemma Atoi_empty : strconv.Atoi "" = (0, Some strconv.ErrSyntax).
Proof. reflexivity. Qed.

Lemma Values_Get_absent (v : gmap string (list string)) (key : string) :
  Values_index v key = [] -> Values_Get v key = "".
Proof.
  unfold Values_index, Values_Get.
  destruct (v !! key) as [[|first rest]|]; simpl; congruence.
Qed.

(** ** The single-vehicle lookup *)

Lemma fetchCarByID_fails (id : Z) (st : State) :
  LookupFails id (world st) -> exists err, fst (fetchCarByID id st) = inl err.
Proof.
  unfold LookupFails, fetchCarByID, liftWorld. run.
  destruct (http_Get _ (world st)) as [[err|[status body]] w]; simpl.
  - eauto.
  - intros [Hstatus|[err Herr]].
    + destruct (Z.eqb_spec status StatusOK); [done|]. simpl. eauto.
    + destruct (status =? StatusOK); simpl; [|eauto]. rewrite Herr. eauto.
Qed.

Lemma fetchCarByID_fails_inv (id : Z) (st : State) (err : error) :
  fst (fetchCarByID id st) = inl err -> LookupFails id (world st).
Proof.
  unfold LookupFails, fetchCarByID, liftWorld. run.
  destruct (http_Get _ (world st)) as [[e|[status body]] w]; simpl; [done|].
  destruct (Z.eqb_spec status StatusOK); simpl; [|auto].
  intros Hdec. right. destruct (decodeCar body); [eauto | discriminate].
Qed.

(** ** The detail handler *)

(** Once the main car is fetched, the handler ends in rendering the detail
    page, with or without the list of all cars. *)
Lemma detailsHandler_found (r : Request) (st st1 : State) (id : Z) (mainCar : Car) :
  strconv.Atoi (Values_Get (URL_Query r) "id") = (id, None) ->
  fetchCarByID id st = (inr mainCar, st1) ->
  detailsHandler r st
  = match fetchCars st1 with
    | (inl err, st2) =>
        renderPage "templates/details.html"
          (DataDetails (mkDetailsPageData mainCar []))
          (mkState _ (world st2)
             (logged st2 ++ ["Could not fetch cars for recommendations: " +:+ err]))
    | (inr cars, st2) =>
        renderPage "templates/details.html"
          (DataDetails (mkDetailsPageData mainCar (recommend mainCar (Some cars)))) st2
    end.
Proof.
  intros Hid Hcar. unfold detailsHandler.
  destruct (String.eqb_spec (Values_Get (URL_Query r) "id") "") as [Hempty|_].
  { rewrite Hempty, Atoi_empty in Hid. discriminate. }
  rewrite Hid. run. rewrite Hcar.
  destruct (fetchCars st1) as [[err|cars] st2]; reflexivity.
Qed.

(** C4: the detail handler answers 400 exactly when the id parameter is
    absent or does not parse as an integer; when it parses, every failure
    of the single-vehicle lookup (transport error, status other than 200,
    undecodable body) gives the one 404 response, not a 500. *)
Theorem C4_details_bad_request_and_not_found (r : Request) (st : State) :
  (StatusCode (fst (detailsHandler r st)) = StatusBadRequest
   <-> Values_index (URL_Query r) "id" = []
       \/ snd (strconv.Atoi (Values_Get (URL_Query r) "id")) <> None)
  /\ (forall id,
        strconv.Atoi (Values_Get (URL_Query r) "id") = (id, None) ->
        LookupFails id (world st) ->
        fst (detailsHandler r st) = http_Error "Car not found" StatusNotFound
        /\ StatusCode (fst (detailsHandler r st)) <> StatusInternalServerError).
Proof.
  split.
  - split.
    + intros Hstatus. right. intros Hparsed.
      destruct (strconv.Atoi (Values_Get (URL_Query r) "id")) as [id e] eqn:Hid.
      simpl in Hparsed. subst e.
      destruct (fetchCarByID id st) as [[err|mainCar] st1] eqn:Hcar.
      * revert Hstatus. unfold detailsHandler.
        destruct (String.eqb_spec (Values_Get (URL_Query r) "id") "") as [Hempty|_].
        { rewrite Hempty, Atoi_empty in Hid. discriminate. }
        rewrite Hid. run. rewrite Hcar. simpl. discriminate.
      * rewrite (detailsHandler_found r st st1 id mainCar Hid Hcar) in Hstatus.
        destruct (fetchCars st1) as [[err|cars] st2];
          match type of Hstatus with
          | StatusCode (fst (renderPage ?p ?d ?s)) = _ =>
              destruct (renderPage_status p d s) as [Hs|Hs]; rewrite Hs in Hstatus
          end; discriminate.
    + intros Hbad. unfold detailsHandler.
      destruct (String.eqb_spec (Values_Get (URL_Query r) "id") "") as [Hempty|Hfull];
        [reflexivity|].
      destruct Hbad as [Habsent|Hparse].
      * by apply Values_Get_absent in Habsent.
      * destruct (strconv.Atoi (Values_Get (URL_Query r) "id")) as [id [e|]];
          [reflexivity | done].
  - intros id Hid Hfails.
    destruct (fetchCarByID_fails id st Hfails) as [err Herr].
    assert (fst (detailsHandler r st) = http_Error "Car not found" StatusNotFound) as ->.
    { unfold detailsHandler.
      destruct (String.eqb_spec (Values_Get (URL_Query r) "id") "") as [Hempty|_].
      { rewrite Hempty, Atoi_empty in Hid. discriminate. }
      rewrite Hid. run.
      destruct (fetchCarByID id st) as [[e|mainCar] st1]; simpl in *; [done | discriminate]. }
    split; [reflexivity | discriminate].
Qed.

(** C8: when the list of all cars cannot be fetched after the main car
    was, the handler logs the failure and goes on to render the detail
    page with an empty recommendation list; the response is the one of
    rendering that page, 200 whenever the template loads. *)
Theorem C8_details_list_failure_tolerated (r : Request) (st st1 st2 : State)
    (id : Z) (mainCar : Car) (err : error) :
  strconv.Atoi (Values_Get (URL_Query r) "id") = (id, None) ->
  fetchCarByID id st = (inr mainCar, st1) ->
  fetchCars st1 = (inl err, st2) ->
  detailsHandler r st
  = renderPage "templates/details.html"
      (DataDetails (mkDetailsPageData mainCar []))
      (mkState _ (world st2)
         (logged st2 ++ ["Could not fetch cars for recommendations: " +:+ err]))
  /\ (forall tmpl w, template_ParseFiles "templates/details.html" (world st2) = (inr tmpl, w) ->
      fst (detailsHandler r st)
      = mkResponse StatusOK
          (fst (fst (template_Execute tmpl (DataDetails (mkDetailsPageData mainCar [])) w)))).
Proof.
  intros Hid Hcar Hlist.
  rewrite (detailsHandler_found r st st1 id mainCar Hid Hcar), Hlist.
  split; [reflexivity|].
  intros tmpl w Hload. rewrite renderPage_run. simpl. by rewrite Hload.
Qed.

(** ** The comparison handler *)

Lemma fetchEach_cons (idStr : string) (ids : list string) (st : State) :
  fetchEach (idStr :: ids) st
  = let '(car, st1) := fetchCarByID (fst (strconv.Atoi idStr)) st in
    let '(results, st2) := fetchEach ids st1 in
    (car :: results, st2).
Proof.
  unfold fetchEach. simpl. run.
  destruct (fetchCarByID _ st) as [car st1].
  change (mapM (fun idStr => fetchCarByID (fst (strconv.Atoi idStr))) ids)
    with (fetchEach ids).
  by destruct (fetchEach ids st1).
Qed.

(** The loop collects, behind what it started with, the fetches that
    succeeded. *)
Lemma selectLoop_fetchEach (ids : list string) (selectedCars : list Car)
    (st : State) :
  selectLoop ids selectedCars st
  = let '(results, st1) := fetchEach ids st in
    (selectedCars ++ succeeded results, st1).
Proof.
  revert selectedCars st. induction ids as [|idStr ids IH]; intros selectedCars st.
  - simpl. unfold succeeded. simpl. by rewrite app_nil_r.
  - rewrite fetchEach_cons. simpl. run.
    destruct (fetchCarByID _ st) as [car st1]. rewrite IH.
    destruct (fetchEach ids st1) as [results st2].
    destruct car as [err|car]; unfold succeeded; simpl; [done|].
    by rewrite <- app_assoc.
Qed.

Lemma compareHandler_enough (r : Request) (st : State) :
  (2 <= length (Values_index (URL_Query r) "id"))%nat ->
  compareHandler r st
  = let '(results, st1) := fetchEach (Values_index (URL_Query r) "id") st in
    renderPage "templates/compare.html" (DataCars (succeeded results)) st1.
Proof.
  intros Hlen. unfold compareHandler.
  destruct (Nat.ltb_spec (length (Values_index (URL_Query r) "id")) 2); [lia|].
  run. rewrite selectLoop_fetchEach.
  by destruct (fetchEach _ st) as [results st1].
Qed.

Lemma compareHandler_status (r : Request) (st : State) :
  StatusCode (fst (compareHandler r st)) = StatusBadRequest
  <-> (length (Values_index (URL_Query r) "id") < 2)%nat.
Proof.
  destruct (Nat.ltb_spec (length (Values_index (URL_Query r) "id")) 2) as [Hfew|Henough].
  - unfold compareHandler.
    destruct (Nat.ltb_spec (length (Values_index (URL_Query r) "id")) 2); [|lia].
    split; [done | reflexivity].
  - rewrite compareHandler_enough by done.
    destruct (fetchEach _ st) as [results st1].
    destruct (renderPage_status "templates/compare.html" (DataCars (succeeded results)) st1)
      as [Hs|Hs]; rewrite Hs; split; [discriminate | lia | discriminate | lia].
Qed.

(** C5: the comparison handler answers 400 exactly when fewer than 2 id
    parameters are supplied; otherwise it fetches every id in turn and
    renders the cars whose fetch succeeded, in the order of the ids and
    without the failed ones, however few are left. *)
Theorem C5_compare_partial_results (r : Request) (st : State) :
  (StatusCode (fst (compareHandler r st)) = StatusBadRequest
   <-> (length (Values_index (URL_Query r) "id") < 2)%nat)
  /\ ((2 <= length (Values_index (URL_Query r) "id"))%nat ->
      compareHandler r st
      = let '(results, st1) := fetchEach (Values_index (URL_Query r) "id") st in
        renderPage "templates/compare.html" (DataCars (succeeded results)) st1).
Proof.
  split; [apply compareHandler_status | apply compareHandler_enough].
Qed.

(** C10: the id parameters are not deduplicated: the same id supplied
    twice passes the at-least-2 check, and when its fetch succeeds both
    times the car is rendered twice. *)
Theorem C10_compare_no_deduplication (r : Request) (st st1 st2 : State)
    (idStr : string) (car : Car) :
  Values_index (URL_Query r) "id" = [idStr; idStr] ->
  fetchCarByID (fst (strconv.Atoi idStr)) st = (inr car, st1) ->
  fetchCarByID (fst (strconv.Atoi idStr)) st1 = (inr car, st2) ->
  StatusCode (fst (compareHandler r st)) <> StatusBadRequest
  /\ compareHandler r st
     = renderPage "templates/compare.html" (DataCars [car; car]) st2.
Proof.
  intros Hids Hfirst Hsecond. split.
  - rewrite compareHandler_status, Hids. simpl. lia.
  - rewrite compareHandler_enough by (rewrite Hids; simpl; lia).
    rewrite Hids, fetchEach_cons, Hfirst. cbv beta iota.
    rewrite fetchEach_cons, Hsecond. reflexivity.
Qed.

(** ** Template failures *)

Lemma renderPage_load_failure (path : string) (data : TemplateData) (st : State)
    (err : error) (w : World) :
  template_ParseFiles path (world st) = (inl err, w) ->
  fst (renderPage path data st) = http_Error "Template error" StatusInternalServerError.
Proof. intros Hload. by rewrite renderPage_run, Hload. Qed.

(** Whatever error executing a loaded template returns is dropped. *)
Lemma renderPage_execute_error_discarded (path : string) (data : TemplateData)
    (st : State) (tmpl : Template) (w : World) :
  template_ParseFiles path (world st) = (inr tmpl, w) ->
  fst (renderPage path data st)
  = mkResponse StatusOK (fst (fst (template_Execute tmpl data w))).
Proof. intros Hload. by rewrite renderPage_run, Hload. Qed.

Lemma homeHandler_render (r : Request) (st st1 : State)
    (cars : list Car) :
  URL_Path r = "/" ->
  fetchCars st = (inr cars, st1) ->
  homeHandler r st
  = let '(categories, st2) := fetchCategories st1 in
    let '(manufacturers, st3) := fetchManufacturers st2 in
    renderPage "templates/index.html"
      (DataPage (mkPageData
         (filterLogic (Values_Get (URL_Query r) "q") cars
            (buildCatMap (orNil categories)) (buildManMap (orNil manufacturers)))
         (Values_Get (URL_Query r) "q"))) st3.
Proof.
  intros Hpath Hcars. unfold homeHandler. rewrite Hpath, String.eqb_refl.
  cbn [negb]. run. rewrite Hcars.
  destruct (fetchCategories st1) as [categories st2].
  destruct (fetchManufacturers st2) as [manufacturers st3].
  reflexivity.
Qed.

(** C6 (amended): every handler that gets as far as its template answers
    500 with the message "Template error" when the template cannot be
    loaded. *)
Theorem C6_template_load_failure (r : Request) (st : State)
    (err : error) :
  (forall cars st1 categories st2 manufacturers st3 w,
     URL_Path r = "/" ->
     fetchCars st = (inr cars, st1) ->
     fetchCategories st1 = (categories, st2) ->
     fetchManufacturers st2 = (manufacturers, st3) ->
     template_ParseFiles "templates/index.html" (world st3) = (inl err, w) ->
     fst (homeHandler r st) = http_Error "Template error" StatusInternalServerError)
  /\ (forall id mainCar st1 fetched st2 w,
       strconv.Atoi (Values_Get (URL_Query r) "id") = (id, None) ->
       fetchCarByID id st = (inr mainCar, st1) ->
       fetchCars st1 = (fetched, st2) ->
       template_ParseFiles "templates/details.html" (world st2) = (inl err, w) ->
       fst (detailsHandler r st) = http_Error "Template error" StatusInternalServerError)
  /\ (forall results st1 w,
       (2 <= length (Values_index (URL_Query r) "id"))%nat ->
       fetchEach (Values_index (URL_Query r) "id") st = (results, st1) ->
       template_ParseFiles "templates/compare.html" (world st1) = (inl err, w) ->
       fst (compareHandler r st) = http_Error "Template error" StatusInternalServerError).
Proof.
  split_and!.
  - intros cars st1 categories st2 manufacturers st3 w Hpath Hcars Hcat Hman Hload.
    rewrite (homeHandler_render r st st1 cars Hpath Hcars), Hcat, Hman.
    apply (renderPage_load_failure _ _ _ err w); exact Hload.
  - intros id mainCar st1 fetched st2 w Hid Hcar Hlist Hload.
    rewrite (detailsHandler_found r st st1 id mainCar Hid Hcar), Hlist.
    destruct fetched as [e|cars]; apply (renderPage_load_failure _ _ _ err w); exact Hload.
  - intros results st1 w Hlen Hfetch Hload.
    rewrite (compareHandler_enough r st Hlen), Hfetch.
    apply (renderPage_load_failure _ _ _ err w); exact Hload.
Qed.

End Handlers.

(** ** The theorems at work on the demo upstream *)

Lemma C1_search_filter_witness :
  "model" <> ""
  /\ @filterLogic Demo.unicode "model" [Demo.car1; Demo.car2; Demo.car3] ∅ ∅
     = [Demo.car1; Demo.car2].
Proof.
  split; [discriminate|].
  rewrite (@C1_search_filter Demo.unicode "model") by discriminate.
  vm_compute. reflexivity.
Defined.

Lemma C4_details_bad_request_and_not_found_witness :
  fst (@detailsHandler (Demo.runtime Demo.healthy)
         (Demo.request "/car" "id" ["999"]) (Demo.start Demo.healthy))
  = http_Error "Car not found" StatusNotFound.
Proof.
  apply (proj2 (@C4_details_bad_request_and_not_found (Demo.runtime Demo.healthy)
                  (Demo.request "/car" "id" ["999"]) (Demo.start Demo.healthy)) 999).
  - vm_compute. reflexivity.
  - vm_compute. left. discriminate.
Defined.

Lemma C8_details_list_failure_tolerated_witness :
  @detailsHandler (Demo.runtime Demo.withListDown)
    (Demo.request "/car" "id" ["1"]) (Demo.start Demo.withListDown)
  = (mkResponse 200 "templates/details.html car=Model X related=",
     @mkState (Demo.runtime Demo.withListDown)
       ["http://127.0.0.1:3000/api/models/1"; "http://127.0.0.1:3000/api/models"]
       ["Could not fetch cars for recommendations: connection reset"]).
Proof.
  rewrite (proj1 (@C8_details_list_failure_tolerated (Demo.runtime Demo.withListDown)
             (Demo.request "/car" "id" ["1"]) (Demo.start Demo.withListDown)
             (@mkState (Demo.runtime Demo.withListDown)
                ["http://127.0.0.1:3000/api/models/1"] [])
             (@mkState (Demo.runtime Demo.withListDown)
                ["http://127.0.0.1:3000/api/models/1"; "http://127.0.0.1:3000/api/models"] [])
             1 Demo.car1 "connection reset"
             ltac:(vm_compute; reflexivity) ltac:(vm_compute; reflexivity)
             ltac:(vm_compute; reflexivity))).
  vm_compute. reflexivity.
Defined.

Lemma C5_compare_partial_results_witness :
  fst (@compareHandler (Demo.runtime Demo.healthy)
         (Demo.request "/compare" "id" ["1"; "999"; "2"]) (Demo.start Demo.healthy))
  = mkResponse 200 "templates/compare.html compare=Model X;Model Y;".
Proof.
  rewrite (proj2 (@C5_compare_partial_results (Demo.runtime Demo.healthy)
                    (Demo.request "/compare" "id" ["1"; "999"; "2"])
                    (Demo.start Demo.healthy)) ltac:(vm_compute; lia)).
  vm_compute. reflexivity.
Defined.

Lemma C10_compare_no_deduplication_witness :
  fst (@compareHandler (Demo.runtime Demo.healthy)
         (Demo.request "/compare" "id" ["2"; "2"]) (Demo.start Demo.healthy))
  = mkResponse 200 "templates/compare.html compare=Model Y;Model Y;".
Proof.
  rewrite (proj2 (@C10_compare_no_deduplication (Demo.runtime Demo.healthy)
             (Demo.request "/compare" "id" ["2"; "2"]) (Demo.start Demo.healthy)
             (@mkState (Demo.runtime Demo.healthy) ["http://127.0.0.1:3000/api/models/2"] [])
             (@mkState (Demo.runtime Demo.healthy)
                ["http://127.0.0.1:3000/api/models/2"; "http://127.0.0.1:3000/api/models/2"] [])
             "2" Demo.car2
             ltac:(vm_compute; reflexivity) ltac:(vm_compute; reflexivity)
             ltac:(vm_compute; reflexivity))).
  vm_compute. reflexivity.
Defined.

(** C7 as stated fails: an id that is not numeric need not parse to zero.
    Twenty nines followed by a letter overflow [int] before the letter is
    reached; [Atoi] reports a range error and returns the largest [int],
    and the handler asks the upstream for that id. *)
Lemma C7_overflowing_digits_counterexample :
  numeric "99999999999999999999x" = false
  /\ strconv.Atoi "99999999999999999999x" = (9223372036854775807, Some strconv.ErrRange)
  /\ fst (strconv.Atoi "99999999999999999999x") <> 0
  /\ world (snd (@compareHandler (Demo.runtime Demo.healthy)
                   (Demo.request "/compare" "id" ["1"; "99999999999999999999x"])
                   (Demo.start Demo.healthy)))
     = ["http://127.0.0.1:3000/api/models/1";
        "http://127.0.0.1:3000/api/models/9223372036854775807"].
Proof. split_and!; [vm_compute; reflexivity | vm_compute; reflexivity | vm_compute; discriminate | vm_compute; reflexivity]. Qed.

Lemma C6_template_load_failure_witness :
  fst (@compareHandler (Demo.runtime Demo.withoutTemplates)
         (Demo.request "/compare" "id" ["1"; "2"]) (Demo.start Demo.withoutTemplates))
  = http_Error "Template error" StatusInternalServerError.
Proof.
  apply (proj2 (proj2 (@C6_template_load_failure Demo.unicode
                          (Demo.runtime Demo.withoutTemplates)
                          (Demo.request "/compare" "id" ["1"; "2"])
                          (Demo.start Demo.withoutTemplates)
                          "open templates/compare.html: no such file"))
           [inr Demo.car1; inr Demo.car2]
           (@mkState (Demo.runtime Demo.withoutTemplates)
              ["http://127.0.0.1:3000/api/models/1"; "http://127.0.0.1:3000/api/models/2"] [])
           ["http://127.0.0.1:3000/api/models/1"; "http://127.0.0.1:3000/api/models/2"]).
  - vm_compute. lia.
  - vm_compute. reflexivity.
  - vm_compute. reflexivity.
Defined.

(** C6 as stated fails: with a template that loads but whose execution
    returns an error, every handler still answers 200. *)
Lemma C6_execute_error_counterexample :
  (forall tmpl data w,
     snd (fst (@template_Execute (Demo.runtime Demo.withFailingExecute) tmpl data w))
     = Some "template: execution failed")
  /\ StatusCode (fst (@homeHandler Demo.unicode (Demo.runtime Demo.withFailingExecute)
                        (Demo.request "/" "q" ["model"])
                        (Demo.start Demo.withFailingExecute))) = 200
  /\ StatusCode (fst (@detailsHandler (Demo.runtime Demo.withFailingExecute)
                        (Demo.request "/car" "id" ["1"])
                        (Demo.start Demo.withFailingExecute))) = 200
  /\ StatusCode (fst (@compareHandler (Demo.runtime Demo.withFailingExecute)
                        (Demo.request "/compare" "id" ["1"; "2"])
                        (Demo.start Demo.withFailingExecute))) = 200.
Proof. split_and!; [intros; reflexivity | vm_compute; reflexivity..]. Qed.

(** ** Worked examples *)

Example ToLower_ascii f : strings.ToLower f "Model X" = "model x".
Proof. reflexivity. Qed.

Example Atoi_examples : strconv.Atoi "-42" = (-42, None) /\ strconv.Atoi "" = (0, Some strconv.ErrSyntax)
  /\ strconv.Atoi "12a" = (0, Some strconv.ErrSyntax)
  /\ strconv.Atoi "9223372036854775807" = (9223372036854775807, None)
  /\ strconv.Atoi "9223372036854775808" = (9223372036854775807, Some strconv.ErrRange)
  /\ strconv.Atoi "-9223372036854775808" = (-9223372036854775808, None)
  /\ strconv.Atoi "-9223372036854775809" = (-9223372036854775808, Some strconv.ErrRange)
  /\ strconv.Atoi "99999999999999999999x" = (9223372036854775807, Some strconv.ErrRange)
  /\ strconv.Atoi "+" = (0, Some strconv.ErrSyntax)
  /\ strconv.Atoi "1_000" = (0, Some strconv.ErrSyntax)
  /\ strconv.Atoi "0000000000000000000000000000000000012" = (12, None)
  /\ strconv.Itoa 0 = "0" /\ strconv.Itoa (-15) = "-15" /\ strconv.Itoa 120 = "120".
Proof. repeat split; vm_compute; reflexivity. Qed.

Example filter_by_manufacturer :
  @filterLogic Demo.unicode "TESLA" (Demo.catalogue Demo.healthy)
    (buildCatMap (Demo.categories Demo.healthy))
    (buildManMap (Demo.manufacturers Demo.healthy))
  = [Demo.car1; Demo.car3; Demo.car4; Demo.car5].
Proof. vm_compute. reflexivity. Qed.

(** Manufacturer 7 is in no lookup map: its name resolves to the empty
    string, which only the empty query occurs in. *)
Example filter_unresolved_reference :
  resolve (buildManMap (Demo.manufacturers Demo.healthy)) (ManufacturerID Demo.car6) = ""
  /\ @filterLogic Demo.unicode "s" [Demo.car6]
       (buildCatMap (Demo.categories Demo.healthy))
       (buildManMap (Demo.manufacturers Demo.healthy)) = [Demo.car6]
  /\ @filterLogic Demo.unicode "audi" [Demo.car6]
       (buildCatMap (Demo.categories Demo.healthy))
       (buildManMap (Demo.manufacturers Demo.healthy)) = [].
Proof. split_and!; vm_compute; reflexivity. Qed.

Example recommend_same_category_only :
  recommend Demo.car1 (Some [Demo.car1; Demo.car2; Demo.car3]) = [Demo.car2].
Proof. vm_compute. reflexivity. Qed.

(** Four cars qualify; the scan stops at the third and never visits the
    last car of the catalogue. *)
Example relatedLoop_stops_at_three :
  relatedLoop Demo.car1 (Demo.catalogue Demo.healthy) []
  = ([Demo.car2; Demo.car4; Demo.car5], [Demo.car6]).
Proof. vm_compute. reflexivity. Qed.

Example compare_single_id_rejected :
  fst (@compareHandler (Demo.runtime Demo.healthy)
         (Demo.request "/compare" "id" ["1"]) (Demo.start Demo.healthy))
  = http_Error "Please select at least 2 cars to compare." StatusBadRequest.
Proof. vm_compute. reflexivity. Qed.

Example compare_no_survivor :
  fst (@compareHandler (Demo.runtime Demo.healthy)
         (Demo.request "/compare" "id" ["998"; "999"]) (Demo.start Demo.healthy))
  = mkResponse 200 "templates/compare.html compare=".
Proof. vm_compute. reflexivity. Qed.

Example details_missing_id :
  fst (@detailsHandler (Demo.runtime Demo.healthy)
         (Demo.request "/car" "q" ["1"]) (Demo.start Demo.healthy))
  = http_Error "ID is required" StatusBadRequest.
Proof. vm_compute. reflexivity. Qed.


(** * Further properties *)

(** ** The lookup maps *)

Lemma buildCatMap_snoc (categories : list Category) (c : Category) :
  buildCatMap (categories ++ [c])
  = <[Category_ID c := Category_Name c]> (buildCatMap categories).
Proof. unfold buildCatMap. by rewrite fold_left_app. Qed.

Lemma buildManMap_snoc (manufacturers : list Manufacturer) (m : Manufacturer) :
  buildManMap (manufacturers ++ [m])
  = <[Manufacturer_ID m := Manufacturer_Name m]> (buildManMap manufacturers).
Proof. unfold buildManMap. by rewrite fold_left_app. Qed.

(** X1: each lookup map gives, for an identifier, the name of the last
    entry of the fetched list that carries it (a later duplicate
    overwrites an earlier one), and has no entry for an identifier that
    no element of the list carries. *)
Theorem X1_lookup_maps_last_entry_wins (categories : list Category)
    (manufacturers : list Manufacturer) (k : Z) :
  buildCatMap categories !! k
  = Category_Name <$> last (filter (fun c => Category_ID c = k) categories)
  /\ buildManMap manufacturers !! k
     = Manufacturer_Name <$> last (filter (fun m => Manufacturer_ID m = k) manufacturers).
Proof.
  split.
  - induction categories as [|c categories IH] using rev_ind; [done|].
    rewrite buildCatMap_snoc, filter_app, filter_cons, filter_nil, lookup_insert.
    repeat case_decide; try congruence.
    + by rewrite last_snoc.
    + by rewrite app_nil_r.
  - induction manufacturers as [|m manufacturers IH] using rev_ind; [done|].
    rewrite buildManMap_snoc, filter_app, filter_cons, filter_nil, lookup_insert.
    repeat case_decide; try congruence.
    + by rewrite last_snoc.
    + by rewrite app_nil_r.
Qed.

(** ** More on strings *)

Lemma append_assoc (a b c : string) : (a +:+ b) +:+ c = a +:+ (b +:+ c).
Proof. induction a as [|x a IH]; simpl; [done | by rewrite IH]. Qed.

Lemma append_nil_r (a : string) : a +:+ "" = a.
Proof. induction a as [|x a IH]; simpl; [done | by rewrite IH]. Qed.

Lemma append_eq_nil (a b : string) : a +:+ b = "" -> a = "" /\ b = "".
Proof. destruct a; simpl; [done | discriminate]. Qed.

Lemma append_inv_head (a b c : string) : a +:+ b = a +:+ c -> b = c.
Proof. induction a as [|x a IH]; simpl; [done|]. intros [= Heq]. by apply IH. Qed.

Lemma Substring_refl (s : string) : Substring s s.
Proof. exists "", "". simpl. by rewrite append_nil_r. Qed.

Lemma Substring_trans (a b c : string) : Substring a b -> Substring b c -> Substring a c.
Proof.
  intros (x & y & ->) (u & v & ->). exists (u +:+ x), (y +:+ v).
  by rewrite !append_assoc.
Qed.

Lemma Substring_nil_l (s : string) : Substring "" s.
Proof. by exists "", s. Qed.

Lemma Substring_nil_r (sub : string) : Substring sub "" <-> sub = "".
Proof.
  split; [|intros ->; apply Substring_refl].
  intros (a & b & Hab). symmetry in Hab.
  apply append_eq_nil in Hab as [_ Hab]. by apply append_eq_nil in Hab as [? _].
Qed.

(** The bytes [strings.ToLower] writes on its ASCII path are ASCII and
    not upper case; checked on all 256 bytes. *)
Lemma lowerByte_ascii (c : ascii) :
  (strings.RuneSelf <=? strings.byte (strings.lowerByte c))%N
  = (strings.RuneSelf <=? strings.byte c)%N.
Proof. destruct c as [[] [] [] [] [] [] [] []]; reflexivity. Qed.

Lemma lowerByte_not_upper (c : ascii) :
  strings.isUpperByte (strings.lowerByte c) = false.
Proof. destruct c as [[] [] [] [] [] [] [] []]; reflexivity. Qed.

Lemma isASCII_mapBytes_lowerByte (s : string) :
  strings.isASCII (strings.mapBytes strings.lowerByte s) = strings.isASCII s.
Proof.
  induction s as [|c s IH]; [done|].
  cbn [strings.mapBytes strings.isASCII]. by rewrite lowerByte_ascii, IH.
Qed.

Lemma hasUpper_mapBytes_lowerByte (s : string) :
  strings.hasUpper (strings.mapBytes strings.lowerByte s) = false.
Proof.
  induction s as [|c s IH]; [done|].
  cbn [strings.mapBytes strings.hasUpper]. by rewrite lowerByte_not_upper, IH.
Qed.

Lemma ToLower_idempotent_ascii (f : string -> string) (s : string) :
  strings.isASCII s = true ->
  strings.ToLower f (strings.ToLower f s) = strings.ToLower f s.
Proof.
  intros Hascii. unfold strings.ToLower. rewrite Hascii.
  destruct (strings.hasUpper s) eqn:Hupper; cbn [negb].
  - by rewrite isASCII_mapBytes_lowerByte, Hascii, hasUpper_mapBytes_lowerByte.
  - by rewrite Hascii, Hupper.
Qed.

(** ** More on the search filter *)

Section SearchAlgebra.
Context `{Unicode}.

#[global] Instance NameMatches_dec q car : Decision (NameMatches q car).
Proof. unfold NameMatches. apply _. Defined.

Lemma QueryMatches_refine q1 q2 catMap manMap car :
  Substring (strings.ToLower mapUnicodeToLower q1) (strings.ToLower mapUnicodeToLower q2) ->
  QueryMatches q2 catMap manMap car -> QueryMatches q1 catMap manMap car.
Proof.
  intros Hsub. unfold QueryMatches.
  intros [Hm|[Hm|Hm]]; [left | right; left | right; right];
    by apply Substring_trans with (strings.ToLower mapUnicodeToLower q2).
Qed.

(** X2: the filter treats each car on its own: it distributes over
    concatenated lists, filtering twice with one query changes nothing,
    and the result is a sublist of the cars given (none added, repeated
    or reordered). *)
Theorem X2_filter_per_car (q : string) (cars1 cars2 : list Car)
    (catMap manMap : gmap Z string) :
  filterLogic q (cars1 ++ cars2) catMap manMap
  = filterLogic q cars1 catMap manMap ++ filterLogic q cars2 catMap manMap
  /\ filterLogic q (filterLogic q cars1 catMap manMap) catMap manMap
     = filterLogic q cars1 catMap manMap
  /\ filterLogic q cars1 catMap manMap `sublist_of` cars1.
Proof.
  rewrite !filterLogic_filter. split_and!.
  - apply filter_app.
  - by apply list_filter_filter_l.
  - apply sublist_filter.
Qed.

(** X3: a longer query narrows the result: when the lower-cased [q1]
    occurs in the lower-cased [q2], the cars found for [q2] are a sublist
    of those found for [q1], and are what [q2] finds among them. *)
Theorem X3_filter_refined_query (q1 q2 : string) (cars : list Car)
    (catMap manMap : gmap Z string) :
  Substring (strings.ToLower mapUnicodeToLower q1) (strings.ToLower mapUnicodeToLower q2) ->
  filterLogic q2 cars catMap manMap `sublist_of` filterLogic q1 cars catMap manMap
  /\ filterLogic q2 (filterLogic q1 cars catMap manMap) catMap manMap
     = filterLogic q2 cars catMap manMap.
Proof.
  intros Hsub. rewrite !filterLogic_filter.
  assert (filter (QueryMatches q2 catMap manMap) (filter (QueryMatches q1 catMap manMap) cars)
          = filter (QueryMatches q2 catMap manMap) cars) as Hnarrow.
  { apply list_filter_filter_l. intros car. by apply QueryMatches_refine. }
  split; [|done]. rewrite <- Hnarrow. apply sublist_filter.
Qed.

(** X4: for an ASCII query the search does not depend on the case the
    query is typed in: the query and its lower-cased form find the same
    cars. *)
Theorem X4_filter_ascii_case_insensitive (q : string) (cars : list Car)
    (catMap manMap : gmap Z string) :
  strings.isASCII q = true ->
  filterLogic (strings.ToLower mapUnicodeToLower q) cars catMap manMap
  = filterLogic q cars catMap manMap.
Proof.
  intros Hascii. rewrite !filterLogic_filter. apply list_filter_iff. intros car.
  unfold QueryMatches. by rewrite ToLower_idempotent_ascii.
Qed.

Lemma QueryMatches_unresolved q catMap manMap car :
  catMap !! CategoryID car = None ->
  manMap !! ManufacturerID car = None ->
  QueryMatches q catMap manMap car <-> NameMatches q car.
Proof.
  intros Hcat Hman. unfold QueryMatches, NameMatches, resolve. rewrite Hcat, Hman.
  change (strings.ToLower mapUnicodeToLower "") with "".
  rewrite Substring_nil_r. split; [|auto].
  intros [Hname|[->| ->]]; [done | apply Substring_nil_l..].
Qed.

Lemma filterLogic_by_name q cars catMap manMap :
  Forall (fun car => catMap !! CategoryID car = None
                     /\ manMap !! ManufacturerID car = None) cars ->
  filterLogic q cars catMap manMap = filter (NameMatches q) cars.
Proof.
  intros Hnone. rewrite filterLogic_filter.
  induction Hnone as [|car cars [Hcat Hman] _ IH]; [done|].
  rewrite !filter_cons, IH.
  destruct (QueryMatches_unresolved q catMap manMap car Hcat Hman) as [Hto Hfrom].
  repeat case_decide; tauto || done.
Qed.

(** X5: cars whose category and manufacturer references are in neither
    lookup map are searched by name alone. *)
Theorem X5_filter_unresolved_by_name (q : string) (cars : list Car)
    (catMap manMap : gmap Z string) :
  Forall (fun car => catMap !! CategoryID car = None
                     /\ manMap !! ManufacturerID car = None) cars ->
  filterLogic q cars catMap manMap = filter (NameMatches q) cars.
Proof. apply filterLogic_by_name. Qed.

End SearchAlgebra.

(** ** More on recommendations *)

Lemma recommend_sublist (mainCar : Car) (allCars : list Car) :
  recommend mainCar (Some allCars) `sublist_of` allCars.
Proof.
  rewrite recommend_take.
  transitivity (filter (Qualifies mainCar) allCars);
    [apply sublist_take | apply sublist_filter].
Qed.

(** X6: when at most 3 cars qualify, every one of them is recommended;
    and the cars that do not qualify have no influence on the list: it
    is the same with or without them. *)
Theorem X6_recommend_complete_when_few (mainCar : Car) (allCars : list Car) :
  ((length (filter (Qualifies mainCar) allCars) <= 3)%nat ->
   recommend mainCar (Some allCars) = filter (Qualifies mainCar) allCars)
  /\ recommend mainCar (Some (filter (Qualifies mainCar) allCars))
     = recommend mainCar (Some allCars).
Proof.
  rewrite !recommend_take. split.
  - intros Hfew. by apply take_ge.
  - f_equal. by apply list_filter_filter_l.
Qed.

(** X7: the recommendation list is a sublist of the upstream list, so it
    keeps the upstream order and recommends no car twice when the
    upstream identifiers are distinct. *)
Theorem X7_recommend_sublist_distinct (mainCar : Car) (allCars : list Car) :
  recommend mainCar (Some allCars) `sublist_of` allCars
  /\ (NoDup (ID <$> allCars) -> NoDup (ID <$> recommend mainCar (Some allCars))).
Proof.
  split; [apply recommend_sublist|].
  intros Hdistinct. apply (sublist_NoDup _ _ Hdistinct).
  apply fmap_sublist, recommend_sublist.
Qed.


(** ** Printing an id and parsing it back *)

Lemma Itoa_inj (i j : Z) : strconv.Itoa i = strconv.Itoa j -> i = j.
Proof.
  unfold strconv.Itoa. intros Heq.
  apply (f_equal NilEmpty.int_of_string) in Heq.
  rewrite !NilEmpty.isi in Heq. injection Heq as Heq.
  apply (f_equal Z.of_int) in Heq. by rewrite !DecimalZ.of_to in Heq.
Qed.

Lemma digitsValue_acc (d : Decimal.uint) (acc : positive) :
  Z.pos (Pos.of_uint_acc d acc) = digitsValue d (Z.pos acc).
Proof.
  revert acc. induction d; intros acc; simpl; [done|..];
    rewrite IHd; f_equal; lia.
Qed.

Lemma digitsValue_of_uint (d : Decimal.uint) :
  Z.of_N (Pos.of_uint d) = digitsValue d 0.
Proof.
  induction d; simpl; [done | done | ..];
    rewrite digitsValue_acc; f_equal.
Qed.

Lemma digitsValue_to_uint (p : positive) : digitsValue (Pos.to_uint p) 0 = Z.pos p.
Proof. by rewrite <- digitsValue_of_uint, DecimalPos.Unsigned.of_to. Qed.

Lemma digitsValue_ge (d : Decimal.uint) (n : Z) : 0 <= n -> n <= digitsValue d n.
Proof.
  revert n. induction d; intros n Hn; simpl; [lia|..];
    (etransitivity; [|apply IHd]); lia.
Qed.

Lemma atoiLoop_digits (d : Decimal.uint) (n : Z) :
  strconv.atoiLoop (NilEmpty.string_of_uint d) n = (digitsValue d n, None).
Proof.
  revert n. induction d; intros n; cbn [NilEmpty.string_of_uint digitsValue];
    [done | rewrite atoiLoop_cons; apply IHd ..].
Qed.

Lemma uint64_small (z : Z) : 0 <= z <= strconv.maxUint64 -> strconv.uint64 z = z.
Proof. unfold strconv.uint64, strconv.maxUint64. intros Hz. apply Z.mod_small. lia. Qed.

Lemma int64_small (z : Z) : minInt <= z <= maxInt -> strconv.int64 z = z.
Proof.
  unfold strconv.int64, minInt, maxInt. intros Hz.
  rewrite Z.mod_small by lia. lia.
Qed.

Lemma parseUintLoop_digit_step (c : ascii) (k : Z) (s : string) (n : Z) :
  strconv.digit c = Some k -> 0 <= k < 10 -> 0 <= n ->
  n * 10 + k <= strconv.maxUint64 ->
  strconv.parseUintLoop (String c s) n = strconv.parseUintLoop s (n * 10 + k).
Proof.
  intros Hdigit Hk Hn Hfits. rewrite parseUintLoop_cons, Hdigit.
  destruct (Z.leb_spec 10 k); [lia|].
  destruct (Z.leb_spec (strconv.maxUint64 / 10 + 1) n) as [Hcut|_].
  { revert Hcut Hfits. unfold strconv.maxUint64.
    change ((2 ^ 64 - 1) / 10 + 1) with 1844674407370955162. lia. }
  rewrite (uint64_small (n * 10)) by lia.
  rewrite (uint64_small (n * 10 + k)) by lia.
  destruct (Z.ltb_spec (n * 10 + k) (n * 10)); [lia|].
  destruct (Z.ltb_spec strconv.maxUint64 (n * 10 + k)); [lia|]. done.
Qed.

Lemma parseUintLoop_digits (d : Decimal.uint) (n : Z) :
  0 <= n -> digitsValue d n <= strconv.maxUint64 ->
  strconv.parseUintLoop (NilEmpty.string_of_uint d) n = (digitsValue d n, None).
Proof.
  revert n. induction d; intros n Hn Hfits;
    cbn [NilEmpty.string_of_uint digitsValue] in *; [done|..].
  all: match type of Hfits with
       | digitsValue _ (_ * 10 + ?k) <= _ =>
           pose proof (digitsValue_ge d (n * 10 + k) ltac:(lia));
           rewrite (parseUintLoop_digit_step _ k) by (reflexivity || lia);
           apply IHd; [lia | done]
       end.
Qed.

Lemma string_of_uint_head (d : Decimal.uint) :
  d <> Decimal.Nil ->
  exists c rest,
    NilEmpty.string_of_uint d = String c rest
    /\ Ascii.eqb c "+" = false /\ Ascii.eqb c "-" = false.
Proof. destruct d; [done | by eexists _, _ ..]. Qed.

Lemma ParseUint_digits (p : positive) :
  Z.pos p <= strconv.maxUint64 ->
  strconv.ParseUint (NilEmpty.string_of_uint (Pos.to_uint p)) = (Z.pos p, None).
Proof.
  intros Hfits.
  destruct (string_of_uint_head (Pos.to_uint p) (DecimalPos.Unsigned.to_uint_nonnil p))
    as (c & rest & Hhead & _).
  unfold strconv.ParseUint. rewrite Hhead, <- Hhead.
  rewrite parseUintLoop_digits; rewrite ?digitsValue_to_uint; done || lia.
Qed.

Lemma ParseInt_Itoa (z : Z) :
  minInt <= z <= maxInt -> strconv.ParseInt (strconv.Itoa z) = (z, None).
Proof.
  unfold minInt, maxInt. intros Hz. destruct z as [|p|p]; [reflexivity|..].
  - destruct (string_of_uint_head (Pos.to_uint p) (DecimalPos.Unsigned.to_uint_nonnil p))
      as (c & rest & Hhead & Hplus & Hminus).
    unfold strconv.Itoa, strconv.ParseInt. cbn [Z.to_int NilEmpty.string_of_int].
    rewrite Hhead, Hplus, Hminus, <- Hhead.
    rewrite ParseUint_digits by (unfold strconv.maxUint64; lia).
    cbn [negb andb].
    change (strconv.uint64 (Z.shiftl 1 (strconv.intSize - 1))) with 9223372036854775808.
    destruct (Z.leb_spec 9223372036854775808 (Z.pos p)); [lia|].
    by rewrite int64_small by (unfold minInt, maxInt; lia).
  - unfold strconv.Itoa, strconv.ParseInt. cbn [Z.to_int NilEmpty.string_of_int].
    change (Ascii.eqb "-" "+") with false. change (Ascii.eqb "-" "-") with true.
    cbv iota.
    rewrite ParseUint_digits by (unfold strconv.maxUint64; lia).
    cbn [negb andb].
    change (strconv.uint64 (Z.shiftl 1 (strconv.intSize - 1))) with 9223372036854775808.
    destruct (Z.ltb_spec 9223372036854775808 (Z.pos p)); [lia|].
    f_equal.
    destruct (Pos.eq_dec p 9223372036854775808%positive) as [->|Hne]; [reflexivity|].
    rewrite (int64_small (Z.pos p)) by (unfold minInt, maxInt; lia).
    rewrite int64_small by (unfold minInt, maxInt; lia). lia.
Qed.

(** What [%d] prints of an [int] is parsed back to it by [Atoi]. *)
Lemma Atoi_Itoa (z : Z) :
  minInt <= z <= maxInt -> strconv.Atoi (strconv.Itoa z) = (z, None).
Proof.
  intros Hz. unfold strconv.Atoi.
  destruct (_ && _); [|by apply ParseInt_Itoa].
  destruct z as [|p|p]; [reflexivity|..].
  - destruct (string_of_uint_head (Pos.to_uint p) (DecimalPos.Unsigned.to_uint_nonnil p))
      as (c & rest & Hhead & Hplus & Hminus).
    unfold strconv.Itoa. cbn [Z.to_int NilEmpty.string_of_int].
    rewrite Hhead, Hplus, Hminus, <- Hhead. cbn [orb andb].
    by rewrite atoiLoop_digits, digitsValue_to_uint.
  - destruct (string_of_uint_head (Pos.to_uint p) (DecimalPos.Unsigned.to_uint_nonnil p))
      as (c & rest & Hhead & _).
    unfold strconv.Itoa. cbn [Z.to_int NilEmpty.string_of_int].
    change (Ascii.eqb "-" "-") with true. cbn [orb andb].
    rewrite Hhead at 1. cbn [String.length].
    destruct (Z.ltb_spec (Z.of_nat (S (String.length rest))) 1); [lia|].
    by rewrite atoiLoop_digits, digitsValue_to_uint.
Qed.


(** ** Parsing a numeric id *)

Lemma isDigit_value (c : ascii) :
  isDigit c = true ->
  strconv.digit c = Some (strconv.byte c - strconv.byte "0")
  /\ strconv.uint8 (strconv.byte c - strconv.byte "0") = strconv.byte c - strconv.byte "0"
  /\ 0 <= strconv.byte c - strconv.byte "0" <= 9.
Proof.
  destruct c as [[] [] [] [] [] [] [] []]; intros Hd; try discriminate Hd;
    split_and!; reflexivity || (cbv; discriminate).
Qed.

Lemma isDigit_not_sign (c : ascii) :
  isDigit c = true -> Ascii.eqb c "+" = false /\ Ascii.eqb c "-" = false.
Proof.
  destruct c as [[] [] [] [] [] [] [] []]; intros Hd; try discriminate Hd; done.
Qed.

Lemma allDigits_cons (c : ascii) (s : string) :
  allDigits (String c s) = true <-> isDigit c = true /\ allDigits s = true.
Proof. cbn [allDigits]. apply andb_true_iff. Qed.

Lemma decimalValue_ge (s : string) (n : Z) :
  allDigits s = true -> 0 <= n -> n <= decimalValue s n.
Proof.
  revert n. induction s as [|c s IH]; intros n Hs Hn; [simpl; lia|].
  apply allDigits_cons in Hs as [Hc Hs].
  destruct (isDigit_value c Hc) as (_ & _ & Hk).
  cbn [decimalValue]. etransitivity; [|apply IH]; [lia | done | lia].
Qed.

Lemma decimalValue_lt (s : string) (n : Z) :
  allDigits s = true -> 0 <= n ->
  decimalValue s n < (n + 1) * 10 ^ Z.of_nat (String.length s).
Proof.
  revert n. induction s as [|c s IH]; intros n Hs Hn; [simpl; lia|].
  apply allDigits_cons in Hs as [Hc Hs].
  destruct (isDigit_value c Hc) as (_ & _ & Hk).
  cbn [decimalValue String.length].
  rewrite Nat2Z.inj_succ, Z.pow_succ_r by lia.
  eapply Z.lt_le_trans; [apply IH; [done | lia]|].
  assert (0 < 10 ^ Z.of_nat (String.length s)) by (apply Z.pow_pos_nonneg; lia).
  nia.
Qed.

Lemma atoiLoop_allDigits (s : string) (n : Z) :
  allDigits s = true -> strconv.atoiLoop s n = (decimalValue s n, None).
Proof.
  revert n. induction s as [|c s IH]; intros n Hs; [done|].
  apply allDigits_cons in Hs as [Hc Hs].
  destruct (isDigit_value c Hc) as (_ & Hbyte & Hk).
  rewrite atoiLoop_cons, Hbyte.
  destruct (Z.ltb_spec 9 (strconv.byte c - strconv.byte "0")); [lia|].
  by apply IH.
Qed.

(** The digit loop of [ParseUint] returns the value of the digits when
    it fits [uint64] and reports a range error otherwise. *)
Lemma parseUintLoop_allDigits (s : string) (n : Z) :
  allDigits s = true -> 0 <= n <= strconv.maxUint64 ->
  strconv.parseUintLoop s n
  = if decimalValue s n <=? strconv.maxUint64
    then (decimalValue s n, None)
    else (strconv.maxUint64, Some strconv.ErrRange).
Proof.
  revert n. induction s as [|c s IH]; intros n Hs Hn.
  - cbn [decimalValue strconv.parseUintLoop].
    by destruct (Z.leb_spec n strconv.maxUint64); [|lia].
  - apply allDigits_cons in Hs as [Hc Hs].
    destruct (isDigit_value c Hc) as (Hdigit & _ & Hk).
    pose proof (decimalValue_ge s (n * 10 + (strconv.byte c - strconv.byte "0")) Hs
                  ltac:(lia)) as Hge.
    rewrite parseUintLoop_cons, Hdigit. cbn [decimalValue].
    set (k := strconv.byte c - strconv.byte "0") in *.
    destruct (Z.leb_spec 10 k); [lia|].
    unfold strconv.maxUint64 in *.
    change ((2 ^ 64 - 1) / 10 + 1) with 1844674407370955162.
    destruct (Z.leb_spec 1844674407370955162 n).
    { by destruct (Z.leb_spec (decimalValue s (n * 10 + k)) (2 ^ 64 - 1)); [lia|]. }
    assert (strconv.uint64 (n * 10) = n * 10) as ->
      by (unfold strconv.uint64; apply Z.mod_small; lia).
    destruct (Z.le_gt_cases (n * 10 + k) (2 ^ 64 - 1)) as [Hfits|Hover].
    + assert (strconv.uint64 (n * 10 + k) = n * 10 + k) as ->
        by (unfold strconv.uint64; apply Z.mod_small; lia).
      destruct (Z.ltb_spec (n * 10 + k) (n * 10)); [lia|].
      destruct (Z.ltb_spec (2 ^ 64 - 1) (n * 10 + k)); [lia|].
      cbn [orb]. apply IH; [done | lia].
    + assert (strconv.uint64 (n * 10 + k) = n * 10 + k - 2 ^ 64) as ->.
      { unfold strconv.uint64. symmetry. apply (Z.mod_unique _ _ 1); lia. }
      destruct (Z.ltb_spec (n * 10 + k - 2 ^ 64) (n * 10)); [|lia].
      cbn [orb].
      by destruct (Z.leb_spec (decimalValue s (n * 10 + k)) (2 ^ 64 - 1)); [lia|].
Qed.

Lemma ParseUint_unsignedNumeric (s : string) :
  unsignedNumeric s = true ->
  strconv.ParseUint s
  = if decimalValue s 0 <=? strconv.maxUint64
    then (decimalValue s 0, None)
    else (strconv.maxUint64, Some strconv.ErrRange).
Proof.
  destruct s as [|c s]; [discriminate|]. rewrite unsignedNumeric_cons. intros Hs.
  apply (parseUintLoop_allDigits (String c s) 0 Hs). unfold strconv.maxUint64. lia.
Qed.

(** After the sign is taken off, for digits that stand for [v]. *)
Lemma ParseInt_signed_numeric (neg : bool) (s1 : string) :
  unsignedNumeric s1 = true ->
  let v := if neg then - decimalValue s1 0 else decimalValue s1 0 in
  match strconv.ParseUint s1 with
  | (_, Some strconv.ErrSyntax) => (0, Some strconv.ErrSyntax)
  | (un, _) =>
      let cutoff := strconv.uint64 (Z.shiftl 1 (strconv.intSize - 1)) in
      if negb neg && (cutoff <=? un)
      then (strconv.int64 (cutoff - 1), Some strconv.ErrRange)
      else if neg && (cutoff <? un)
      then (strconv.int64 (- strconv.int64 cutoff), Some strconv.ErrRange)
      else (if neg then strconv.int64 (- strconv.int64 un) else strconv.int64 un, None)
  end
  = if fitsInt v then (v, None)
    else (if v <? 0 then minInt else maxInt, Some strconv.ErrRange).
Proof.
  intros Hs. cbv zeta. rewrite (ParseUint_unsignedNumeric s1 Hs).
  assert (0 <= decimalValue s1 0) as Hpos.
  { destruct s1 as [|c s]; [discriminate|]. rewrite unsignedNumeric_cons in Hs.
    by apply decimalValue_ge. }
  change (strconv.uint64 (Z.shiftl 1 (strconv.intSize - 1))) with 9223372036854775808.
  change (strconv.int64 (9223372036854775808 - 1)) with maxInt.
  change (strconv.int64 (- strconv.int64 9223372036854775808)) with minInt.
  unfold fitsInt, strconv.maxUint64, minInt, maxInt in *.
  set (u := decimalValue s1 0) in *.
  destruct (Z.leb_spec u (2 ^ 64 - 1)) as [Hfit|Hover]; destruct neg; cbn [negb andb].
  - destruct (Z.ltb_spec 9223372036854775808 u).
    + destruct (Z.leb_spec (-9223372036854775808) (- u)); [lia|]. cbn [andb].
      by destruct (Z.ltb_spec (- u) 0); [|lia].
    + destruct (Z.leb_spec (-9223372036854775808) (- u)); [|lia].
      destruct (Z.leb_spec (- u) 9223372036854775807); [|lia]. cbn [andb]. f_equal.
      destruct (Z.eq_dec u 9223372036854775808) as [->|Hne]; [reflexivity|].
      unfold strconv.int64. rewrite (Z.mod_small (u + 2 ^ 63)) by lia.
      replace (u + 2 ^ 63 - 2 ^ 63) with u by lia.
      rewrite Z.mod_small by lia. lia.
  - destruct (Z.leb_spec 9223372036854775808 u).
    + destruct (Z.leb_spec (-9223372036854775808) u); [|lia].
      destruct (Z.leb_spec u 9223372036854775807); [lia|]. cbn [andb].
      by destruct (Z.ltb_spec u 0); [lia|].
    + destruct (Z.leb_spec (-9223372036854775808) u); [|lia].
      destruct (Z.leb_spec u 9223372036854775807); [|lia]. cbn [andb]. f_equal.
      unfold strconv.int64. rewrite Z.mod_small by lia. lia.
  - change (9223372036854775808 <? 2 ^ 64 - 1) with true. cbv iota.
    destruct (Z.leb_spec (-9223372036854775808) (- u)); [lia|]. cbn [andb].
    by destruct (Z.ltb_spec (- u) 0); [|lia].
  - change (9223372036854775808 <=? 2 ^ 64 - 1) with true. cbv iota.
    destruct (Z.leb_spec (-9223372036854775808) u); [|lia].
    destruct (Z.leb_spec u 9223372036854775807); [lia|]. cbn [andb].
    by destruct (Z.ltb_spec u 0); [lia|].
Qed.

Lemma ParseInt_numeric (s : string) :
  numeric s = true ->
  strconv.ParseInt s
  = if fitsInt (signedValue s) then (signedValue s, None)
    else (if signedValue s <? 0 then minInt else maxInt, Some strconv.ErrRange).
Proof.
  destruct s as [|c0 rest]; [discriminate|].
  unfold numeric, strconv.ParseInt, signedValue.
  destruct (Ascii.eqb c0 "+"); cbn [orb]; [apply (ParseInt_signed_numeric false)|].
  destruct (Ascii.eqb c0 "-"); cbn [orb]; [apply (ParseInt_signed_numeric true)|].
  apply (ParseInt_signed_numeric false).
Qed.

(** [Atoi] on a numeric string: its value when it fits [int], a range
    error and the nearest bound otherwise. *)
Lemma Atoi_numeric (s : string) :
  numeric s = true ->
  strconv.Atoi s
  = if fitsInt (signedValue s) then (signedValue s, None)
    else (if signedValue s <? 0 then minInt else maxInt, Some strconv.ErrRange).
Proof.
  intros Hnum. unfold strconv.Atoi.
  destruct ((0 <? Z.of_nat (String.length s)) && (Z.of_nat (String.length s) <? 19))
    eqn:Hfast; [|by apply ParseInt_numeric].
  apply andb_true_iff in Hfast as [_ Hlen%Z.ltb_lt].
  destruct s as [|c0 rest]; [discriminate|].
  revert Hnum. unfold numeric, signedValue.
  assert (forall t, allDigits t = true ->
            (Z.of_nat (String.length t) < 19) -> 0 <= decimalValue t 0 < 10 ^ 18) as Hbound.
  { intros t Ht Hshort. split; [by apply decimalValue_ge|].
    eapply Z.lt_le_trans; [by apply decimalValue_lt|].
    rewrite Z.mul_1_l. apply Z.pow_le_mono_r; lia. }
  cbn [String.length] in Hlen.
  destruct (Ascii.eqb c0 "-") eqn:Hminus, (Ascii.eqb c0 "+") eqn:Hplus;
    cbv beta iota zeta delta [orb andb]; intros Hnum.
  { apply Ascii.eqb_eq in Hminus, Hplus. congruence. }
  all: try (destruct rest as [|c1 rest]; [discriminate|];
            destruct (Z.ltb_spec (Z.of_nat (String.length (String c1 rest))) 1);
            [simpl String.length in *; lia|]).
  all: rewrite unsignedNumeric_cons in Hnum.
  all: rewrite (atoiLoop_allDigits _ 0 Hnum).
  all: match goal with
       | |- context [decimalValue ?t 0] =>
           pose proof (Hbound t Hnum ltac:(cbn [String.length] in *; lia)) as Hv
       end.
  all: unfold fitsInt, minInt, maxInt.
  all: match goal with
       | |- _ = (if (?a <=? ?v) && (?v <=? ?b) then _ else _) =>
           destruct (Z.leb_spec a v); [|lia]; destruct (Z.leb_spec v b); [|lia]
       end; done.
Qed.

(** ** Parsing an id that is not numeric *)

Lemma leadingDigits_allDigits (s : string) : allDigits (leadingDigits s) = true.
Proof.
  induction s as [|c s IH]; [done|]. cbn [leadingDigits].
  destruct (isDigit c) eqn:Hc; [|done]. apply allDigits_cons. done.
Qed.

Lemma leadingDigits_length (s : string) :
  (String.length (leadingDigits s) <= String.length s)%nat.
Proof.
  induction s as [|c s IH]; [done|]. cbn [leadingDigits].
  destruct (isDigit c); cbn [String.length]; lia.
Qed.

(** On a string that does not consist of digits the loop of [ParseUint]
    ends in a syntax error at the first byte that is not a digit, unless
    the digits before that byte exceed [uint64]: the range error comes
    first then. *)
Lemma parseUintLoop_leading (s : string) (n : Z) :
  allDigits s = false -> 0 <= n <= strconv.maxUint64 ->
  strconv.parseUintLoop s n
  = if decimalValue (leadingDigits s) n <=? strconv.maxUint64
    then (0, Some strconv.ErrSyntax)
    else (strconv.maxUint64, Some strconv.ErrRange).
Proof.
  revert n. induction s as [|c s IH]; intros n Hs Hn; [discriminate|].
  rewrite parseUintLoop_cons. cbn [leadingDigits].
  destruct (isDigit c) eqn:Hc.
  - assert (allDigits s = false) as Hrest.
    { destruct (allDigits s) eqn:Hrest; [|done].
      rewrite (proj2 (allDigits_cons c s)) in Hs; done. }
    destruct (isDigit_value c Hc) as (Hdigit & _ & Hk).
    pose proof (decimalValue_ge (leadingDigits s)
                  (n * 10 + (strconv.byte c - strconv.byte "0"))
                  (leadingDigits_allDigits s) ltac:(lia)) as Hge.
    rewrite Hdigit. cbn [decimalValue].
    set (k := strconv.byte c - strconv.byte "0") in *.
    destruct (Z.leb_spec 10 k); [lia|].
    unfold strconv.maxUint64 in *.
    change ((2 ^ 64 - 1) / 10 + 1) with 1844674407370955162.
    destruct (Z.leb_spec 1844674407370955162 n).
    { by destruct (Z.leb_spec (decimalValue (leadingDigits s) (n * 10 + k)) (2 ^ 64 - 1));
        [lia|]. }
    assert (strconv.uint64 (n * 10) = n * 10) as ->
      by (unfold strconv.uint64; apply Z.mod_small; lia).
    destruct (Z.le_gt_cases (n * 10 + k) (2 ^ 64 - 1)) as [Hfits|Hover].
    + assert (strconv.uint64 (n * 10 + k) = n * 10 + k) as ->
        by (unfold strconv.uint64; apply Z.mod_small; lia).
      destruct (Z.ltb_spec (n * 10 + k) (n * 10)); [lia|].
      destruct (Z.ltb_spec (2 ^ 64 - 1) (n * 10 + k)); [lia|].
      cbn [orb]. apply IH; [done | lia].
    + assert (strconv.uint64 (n * 10 + k) = n * 10 + k - 2 ^ 64) as ->.
      { unfold strconv.uint64. symmetry. apply (Z.mod_unique _ _ 1); lia. }
      destruct (Z.ltb_spec (n * 10 + k - 2 ^ 64) (n * 10)); [|lia].
      cbn [orb].
      by destruct (Z.leb_spec (decimalValue (leadingDigits s) (n * 10 + k)) (2 ^ 64 - 1));
        [lia|].
  - cbn [decimalValue].
    destruct (Z.leb_spec n strconv.maxUint64); [|lia].
    pose proof (digit_class c) as Hclass. rewrite Hc in Hclass.
    destruct (strconv.digit c) as [d|]; [|done]. by rewrite Hclass.
Qed.

Lemma ParseUint_leading (s : string) :
  unsignedNumeric s = false ->
  strconv.ParseUint s
  = if decimalValue (leadingDigits s) 0 <=? strconv.maxUint64
    then (0, Some strconv.ErrSyntax)
    else (strconv.maxUint64, Some strconv.ErrRange).
Proof.
  destruct s as [|c s]; [done|]. rewrite unsignedNumeric_cons. intros Hs.
  apply (parseUintLoop_leading (String c s) 0 Hs). unfold strconv.maxUint64. lia.
Qed.

Lemma ParseInt_signed_leading (neg : bool) (s1 : string) :
  unsignedNumeric s1 = false ->
  match strconv.ParseUint s1 with
  | (_, Some strconv.ErrSyntax) => (0, Some strconv.ErrSyntax)
  | (un, _) =>
      let cutoff := strconv.uint64 (Z.shiftl 1 (strconv.intSize - 1)) in
      if negb neg && (cutoff <=? un)
      then (strconv.int64 (cutoff - 1), Some strconv.ErrRange)
      else if neg && (cutoff <? un)
      then (strconv.int64 (- strconv.int64 cutoff), Some strconv.ErrRange)
      else (if neg then strconv.int64 (- strconv.int64 un) else strconv.int64 un, None)
  end
  = if decimalValue (leadingDigits s1) 0 <=? strconv.maxUint64
    then (0, Some strconv.ErrSyntax)
    else (if neg then minInt else maxInt, Some strconv.ErrRange).
Proof.
  intros Hs. rewrite (ParseUint_leading s1 Hs).
  destruct (decimalValue (leadingDigits s1) 0 <=? strconv.maxUint64); [done|].
  by destruct neg.
Qed.

Lemma ParseInt_leading (s : string) :
  numeric s = false ->
  strconv.ParseInt s
  = if decimalValue (leadingDigits (unsignedPart s)) 0 <=? strconv.maxUint64
    then (0, Some strconv.ErrSyntax)
    else (if isNegative s then minInt else maxInt, Some strconv.ErrRange).
Proof.
  destruct s as [|c0 rest]; [done|].
  unfold numeric, strconv.ParseInt, unsignedPart, isNegative.
  destruct (Ascii.eqb_spec c0 "+") as [->|Hplus]; cbn [orb].
  { change (Ascii.eqb "+" "-") with false. apply (ParseInt_signed_leading false). }
  destruct (Ascii.eqb c0 "-"); cbn [orb]; [apply (ParseInt_signed_leading true)|].
  apply (ParseInt_signed_leading false).
Qed.

Lemma decimalValue_short (t : string) :
  allDigits t = true -> (String.length t < 20)%nat ->
  decimalValue t 0 <= strconv.maxUint64.
Proof.
  intros Ht Hshort.
  pose proof (decimalValue_lt t 0 Ht ltac:(lia)) as Hlt.
  assert (10 ^ Z.of_nat (String.length t) <= 10 ^ 19)
    by (apply Z.pow_le_mono_r; lia).
  unfold strconv.maxUint64. lia.
Qed.

Lemma leadingDigits_short (s : string) :
  (String.length s < 20)%nat ->
  decimalValue (leadingDigits s) 0 <= strconv.maxUint64.
Proof.
  intros Hshort. pose proof (leadingDigits_length s) as Hlen.
  apply decimalValue_short; [apply leadingDigits_allDigits | lia].
Qed.

Lemma unsignedPart_length (s : string) :
  (String.length (unsignedPart s) <= String.length s)%nat.
Proof.
  destruct s as [|c rest]; [done|]. unfold unsignedPart.
  destruct (_ || _); cbn [String.length]; lia.
Qed.

Lemma leadingDigits_length_lt (s : string) :
  allDigits s = false ->
  (String.length (leadingDigits s) < String.length s)%nat.
Proof.
  induction s as [|c s IH]; [done|]. cbn [leadingDigits allDigits].
  destruct (isDigit c); cbn [andb String.length]; [|lia].
  intros Hs. specialize (IH Hs). lia.
Qed.

Lemma numeric_unsignedPart (s : string) :
  numeric s = false -> unsignedNumeric (unsignedPart s) = false.
Proof.
  destruct s as [|c rest]; [done|]. unfold numeric, unsignedPart.
  by destruct (_ || _).
Qed.

(** Behind the digits of an id that is not numeric comes at least one
    more byte, so that up to 20 bytes leave room for 19 digits only. *)
Lemma leadingDigits_fits (s : string) :
  numeric s = false -> (String.length s <= 20)%nat ->
  decimalValue (leadingDigits (unsignedPart s)) 0 <= strconv.maxUint64.
Proof.
  intros Hnum%numeric_unsignedPart Hlen.
  pose proof (unsignedPart_length s) as Hpart.
  destruct (unsignedPart s) as [|c u] eqn:Hu;
    [cbn [leadingDigits decimalValue]; unfold strconv.maxUint64; lia|].
  rewrite unsignedNumeric_cons in Hnum.
  apply leadingDigits_length_lt in Hnum.
  apply decimalValue_short; [apply leadingDigits_allDigits | lia].
Qed.

(** [Atoi] on an id that is not numeric: a syntax error and 0, unless
    the digits the id starts with behind its optional sign exceed
    [uint64]; then a range error and the bound of [int] on the side of
    the sign. *)
Lemma Atoi_leading (s : string) :
  numeric s = false ->
  strconv.Atoi s
  = if decimalValue (leadingDigits (unsignedPart s)) 0 <=? strconv.maxUint64
    then (0, Some strconv.ErrSyntax)
    else (if isNegative s then minInt else maxInt, Some strconv.ErrRange).
Proof.
  intros Hnum.
  destruct ((0 <? Z.of_nat (String.length s)) && (Z.of_nat (String.length s) <? 19))
    eqn:Hfast.
  - apply andb_true_iff in Hfast as [_ Hlen%Z.ltb_lt].
    pose proof (unsignedPart_length s) as Hpart.
    pose proof (leadingDigits_short (unsignedPart s) ltac:(lia)) as Hfits.
    destruct (Z.leb_spec (decimalValue (leadingDigits (unsignedPart s)) 0)
                strconv.maxUint64); [|lia].
    destruct (Atoi_not_numeric s Hnum) as [Hsyntax|[Hlong _]]; [done | lia].
  - rewrite <- (ParseInt_leading s Hnum). unfold strconv.Atoi. by rewrite Hfast.
Qed.

(** ** More on the handlers *)

Section HandlerRuns.
Context `{Unicode} `{Runtime}.

Ltac run := cbv beta delta [mbind M_bind mret M_ret].

(** The fetchers make one round trip and write nothing to the log. *)
Lemma fetchCarByID_state (id : Z) (st : State) :
  snd (fetchCarByID id st)
  = mkState _ (snd (http_Get (carURL id) (world st))) (logged st).
Proof.
  unfold fetchCarByID, carURL, liftWorld. run.
  destruct (http_Get _ (world st)) as [[err|[status body]] w]; simpl; [done|].
  by destruct (negb _).
Qed.

Lemma fetchCars_state (st : State) :
  snd (fetchCars st)
  = mkState _ (snd (http_Get "http://127.0.0.1:3000/api/models" (world st))) (logged st).
Proof.
  unfold fetchCars, liftWorld. run.
  by destruct (http_Get _ (world st)) as [[err|[status body]] w].
Qed.

Lemma fetchCategories_state (st : State) :
  snd (fetchCategories st)
  = mkState _ (snd (http_Get "http://127.0.0.1:3000/api/categories" (world st))) (logged st).
Proof.
  unfold fetchCategories, liftWorld. run.
  by destruct (http_Get _ (world st)) as [[err|[status body]] w].
Qed.

Lemma fetchManufacturers_state (st : State) :
  snd (fetchManufacturers st)
  = mkState _ (snd (http_Get "http://127.0.0.1:3000/api/manufacturers" (world st)))
      (logged st).
Proof.
  unfold fetchManufacturers, liftWorld. run.
  by destruct (http_Get _ (world st)) as [[err|[status body]] w].
Qed.

Lemma fetchEach_shape (ids : list string) (st : State) :
  length (fst (fetchEach ids st)) = length ids
  /\ logged (snd (fetchEach ids st)) = logged st.
Proof.
  revert st. induction ids as [|idStr ids IH]; intros st; [done|].
  rewrite fetchEach_cons.
  pose proof (fetchCarByID_state (fst (strconv.Atoi idStr)) st) as Hstate.
  destruct (fetchCarByID _ st) as [car st1]. simpl in Hstate. subst st1.
  match goal with |- context [fetchEach ids ?s] => destruct (IH s) as [Hlen Hlog] end.
  destruct (fetchEach ids _) as [results st2]. simpl in *. by rewrite Hlen, Hlog.
Qed.

Lemma succeeded_length (results : list (error + Car)) :
  (length (succeeded results) <= length results)%nat.
Proof.
  induction results as [|[err|car] results IH]; [done|..].
  - change (succeeded (inl err :: results)) with (succeeded results). simpl. lia.
  - change (succeeded (inr car :: results)) with (car :: succeeded results). simpl. lia.
Qed.

Lemma detailsHandler_not_found (r : Request) (st st1 : State) (id : Z) (err : error) :
  strconv.Atoi (Values_Get (URL_Query r) "id") = (id, None) ->
  fetchCarByID id st = (inl err, st1) ->
  detailsHandler r st = (http_Error "Car not found" StatusNotFound, st1).
Proof.
  intros Hid Hcar. unfold detailsHandler.
  destruct (String.eqb_spec (Values_Get (URL_Query r) "id") "") as [Hempty|_].
  { rewrite Hempty, Atoi_empty in Hid. discriminate. }
  rewrite Hid. run. by rewrite Hcar.
Qed.

Lemma detailsHandler_rejected (r : Request) (st : State) :
  snd (strconv.Atoi (Values_Get (URL_Query r) "id")) <> None ->
  detailsHandler r st
  = (http_Error (if String.eqb (Values_Get (URL_Query r) "id") ""
                 then "ID is required" else "Invalid ID") StatusBadRequest, st).
Proof.
  intros Hbad. unfold detailsHandler.
  destruct (String.eqb (Values_Get (URL_Query r) "id") ""); [done|].
  by destruct (strconv.Atoi (Values_Get (URL_Query r) "id")) as [id [e|]].
Qed.

Lemma detailsHandler_accepted_status (r : Request) (st : State) (id : Z) :
  strconv.Atoi (Values_Get (URL_Query r) "id") = (id, None) ->
  StatusCode (fst (detailsHandler r st)) <> StatusBadRequest
  /\ (fst (detailsHandler r st) = http_Error "Car not found" StatusNotFound
      <-> LookupFails id (world st)).
Proof.
  intros Hid. destruct (fetchCarByID id st) as [[err|mainCar] st1] eqn:Hcar.
  - rewrite (detailsHandler_not_found r st st1 id err Hid Hcar). simpl.
    split; [discriminate|]. split; [|done].
    intros _. apply (fetchCarByID_fails_inv id st err). by rewrite Hcar.
  - assert (StatusCode (fst (detailsHandler r st)) = StatusInternalServerError
            \/ StatusCode (fst (detailsHandler r st)) = StatusOK) as Hstatus.
    { rewrite (detailsHandler_found r st st1 id mainCar Hid Hcar).
      destruct (fetchCars st1) as [[err|cars] st2]; apply renderPage_status. }
    split; [destruct Hstatus as [-> | ->]; discriminate|]. split.
    + intros Hresp. rewrite Hresp in Hstatus. destruct Hstatus; discriminate.
    + intros [err Herr]%(fetchCarByID_fails id st). rewrite Hcar in Herr. discriminate.
Qed.

(** X8: the single-vehicle fetch succeeds exactly when the upstream
    answers 200 with a body that decodes, and then returns the decoded
    car; any other status gives the error "API returned status: N"; in
    every case it makes the one request for the URL of the id and logs
    nothing. *)
Theorem X8_fetchCarByID_outcomes (id : Z) (st : State) :
  (forall car,
     fst (fetchCarByID id st) = inr car
     <-> exists body,
           fst (http_Get (carURL id) (world st)) = inr (StatusOK, body)
           /\ decodeCar body = inr car)
  /\ (forall status body,
       fst (http_Get (carURL id) (world st)) = inr (status, body) ->
       status <> StatusOK ->
       fst (fetchCarByID id st) = inl ("API returned status: " +:+ strconv.Itoa status))
  /\ snd (fetchCarByID id st)
     = mkState _ (snd (http_Get (carURL id) (world st))) (logged st).
Proof.
  split_and!; [| |apply fetchCarByID_state].
  - intros car. unfold fetchCarByID, carURL, liftWorld. run.
    destruct (http_Get _ (world st)) as [[err|[status body]] w]; simpl.
    + split; [discriminate | intros (body & Hget & _); discriminate].
    + destruct (Z.eqb_spec status StatusOK) as [->|Hstatus]; simpl.
      * split; [eauto | intros (body' & [= <-] & Hdec); done].
      * split; [discriminate | intros (body' & [= Hs _] & _); done].
  - intros status body Hget Hstatus. revert Hget.
    unfold fetchCarByID, carURL, liftWorld. run.
    destruct (http_Get _ (world st)) as [[err|[status' body']] w]; simpl; [discriminate|].
    intros [= -> ->]. by destruct (Z.eqb_spec status StatusOK).
Qed.

(** X9: the list fetch does not look at the status code: it succeeds
    exactly when the request gets a response, of whatever status, whose
    body decodes. *)
Theorem X9_fetchCars_any_status (st : State) (cars : list Car) :
  fst (fetchCars st) = inr cars
  <-> exists status body,
        fst (http_Get "http://127.0.0.1:3000/api/models" (world st)) = inr (status, body)
        /\ decodeCars body = inr cars.
Proof.
  unfold fetchCars, liftWorld. run.
  destruct (http_Get _ (world st)) as [[err|[status body]] w]; simpl.
  - split; [discriminate | intros (? & ? & ? & _); discriminate].
  - split; [eauto | intros (? & ? & [= <- <-] & Hdec); done].
Qed.

(** X10: different ids are fetched from different URLs, and none of them
    from the URL of the list. *)
Theorem X10_carURL_injective (i j : Z) :
  (carURL i = carURL j -> i = j)
  /\ carURL i <> "http://127.0.0.1:3000/api/models".
Proof.
  unfold carURL. split.
  - intros Heq. by apply append_inv_head, Itoa_inj in Heq.
  - change "http://127.0.0.1:3000/api/models/"
      with ("http://127.0.0.1:3000/api/models" +:+ "/").
    rewrite append_assoc.
    rewrite <- (append_nil_r "http://127.0.0.1:3000/api/models") at 2.
    intros Heq. apply append_inv_head in Heq. discriminate.
Qed.

(** X11: an id given as the decimal digits [%d] prints for an [int] is
    read back as that [int]: the detail handler never answers 400 to it
    and answers the 404 response exactly when the lookup of that id
    fails, and the comparison loop fetches that id. *)
Theorem X11_printed_id_is_fetched (z : Z) (r : Request) (st : State) :
  minInt <= z <= maxInt ->
  (Values_Get (URL_Query r) "id" = strconv.Itoa z ->
   StatusCode (fst (detailsHandler r st)) <> StatusBadRequest
   /\ (fst (detailsHandler r st) = http_Error "Car not found" StatusNotFound
       <-> LookupFails z (world st)))
  /\ (forall ids selectedCars,
       selectLoop (strconv.Itoa z :: ids) selectedCars st
       = let '(car, st1) := fetchCarByID z st in
         selectLoop ids (match car with
                         | inr car => selectedCars ++ [car]
                         | inl _ => selectedCars
                         end) st1).
Proof.
  intros Hz. split.
  - intros Hid. apply detailsHandler_accepted_status. rewrite Hid. by apply Atoi_Itoa.
  - intros ids selectedCars. cbn [selectLoop]. by rewrite Atoi_Itoa.
Qed.

(** X12: a request turned down with 400 never reaches the upstream and
    leaves no line in the log, in the detail handler as in the comparison
    handler. *)
Theorem X12_bad_request_touches_nothing (r : Request) (st : State) :
  (StatusCode (fst (detailsHandler r st)) = StatusBadRequest ->
   snd (detailsHandler r st) = st)
  /\ (StatusCode (fst (compareHandler r st)) = StatusBadRequest ->
      snd (compareHandler r st) = st).
Proof.
  split.
  - intros Hstatus.
    destruct (strconv.Atoi (Values_Get (URL_Query r) "id")) as [id [e|]] eqn:Hid.
    + rewrite detailsHandler_rejected; [done | by rewrite Hid].
    + by destruct (detailsHandler_accepted_status r st id Hid) as [Hnot _].
  - intros Hfew%compareHandler_status. unfold compareHandler.
    by destruct (Nat.ltb_spec (length (Values_index (URL_Query r) "id")) 2); [|lia].
Qed.

Lemma homeHandler_fetch_failure (r : Request) (st st1 : State) (err : error) :
  URL_Path r = "/" ->
  fetchCars st = (inl err, st1) ->
  homeHandler r st
  = (http_Error "Failed to load cars. Is Node running?" StatusInternalServerError,
     mkState _ (world st1) (logged st1 ++ ["Error fetching cars: " +:+ err])).
Proof.
  intros Hpath Hcars. unfold homeHandler. rewrite Hpath, String.eqb_refl.
  cbn [negb]. run. by rewrite Hcars.
Qed.

(** X13: the catalog handler answers 404 exactly for a path other than
    "/", and then without any request to the upstream or line in the
    log. *)
Theorem X13_home_not_found (r : Request) (st : State) :
  (StatusCode (fst (homeHandler r st)) = StatusNotFound <-> URL_Path r <> "/")
  /\ (URL_Path r <> "/" -> homeHandler r st = (http_NotFound, st)).
Proof.
  assert (URL_Path r <> "/" -> homeHandler r st = (http_NotFound, st)) as Hother.
  { intros Hpath. unfold homeHandler.
    by destruct (String.eqb_spec (URL_Path r) "/"). }
  split; [|done]. split.
  - intros Hstatus Hpath. revert Hstatus.
    destruct (fetchCars st) as [[err|cars] st1] eqn:Hcars.
    + by rewrite (homeHandler_fetch_failure r st st1 err Hpath Hcars).
    + rewrite (homeHandler_render r st st1 cars Hpath Hcars).
      destruct (fetchCategories st1) as [categories st2].
      destruct (fetchManufacturers st2) as [manufacturers st3].
      match goal with
      | |- StatusCode (fst (renderPage ?p ?d ?s)) = _ -> _ =>
          destruct (renderPage_status p d s) as [-> | ->]; discriminate
      end.
  - intros Hpath. by rewrite Hother.
Qed.

(** X14: when the list of cars cannot be fetched the catalog handler
    answers 500 "Failed to load cars. Is Node running?", logs the error,
    and asks the upstream for nothing more: the world is left as the one
    failed request left it. *)
Theorem X14_home_mandatory_fetch (r : Request) (st : State) (err : error) :
  URL_Path r = "/" ->
  fst (fetchCars st) = inl err ->
  homeHandler r st
  = (http_Error "Failed to load cars. Is Node running?" StatusInternalServerError,
     mkState _ (snd (http_Get "http://127.0.0.1:3000/api/models" (world st)))
       (logged st ++ ["Error fetching cars: " +:+ err])).
Proof.
  intros Hpath Hcars. pose proof (fetchCars_state st) as Hstate.
  destruct (fetchCars st) as [cars st1] eqn:Hrun. simpl in *. subst cars st1.
  by rewrite (homeHandler_fetch_failure r st _ err Hpath Hrun).
Qed.

(** X15: when both the categories and the manufacturers cannot be
    fetched the catalog page is still rendered: the cars are searched by
    name alone, and neither failure is logged. *)
Theorem X15_home_optional_fetches (r : Request) (st st1 st2 st3 : State)
    (cars : list Car) (err1 err2 : error) :
  URL_Path r = "/" ->
  fetchCars st = (inr cars, st1) ->
  fetchCategories st1 = (inl err1, st2) ->
  fetchManufacturers st2 = (inl err2, st3) ->
  homeHandler r st
  = renderPage "templates/index.html"
      (DataPage (mkPageData (filter (NameMatches (Values_Get (URL_Query r) "q")) cars)
                            (Values_Get (URL_Query r) "q"))) st3
  /\ logged st3 = logged st.
Proof.
  intros Hpath Hcars Hcat Hman. split.
  - rewrite (homeHandler_render r st st1 cars Hpath Hcars), Hcat, Hman.
    cbn [orb orNil]. rewrite filterLogic_by_name; [done|].
    apply Forall_forall. intros car _. split; apply lookup_empty.
  - pose proof (fetchCars_state st) as H1.
    pose proof (fetchCategories_state st1) as H2.
    pose proof (fetchManufacturers_state st2) as H3.
    rewrite Hcars in H1. rewrite Hcat in H2. rewrite Hman in H3.
    simpl in *. subst. done.
Qed.

(** X16: on a failed lookup the detail handler stops at once: the list of
    all cars is not fetched and nothing is logged; the state is the one
    the single request left. *)
Theorem X16_details_not_found_stops (r : Request) (st : State) (id : Z) :
  strconv.Atoi (Values_Get (URL_Query r) "id") = (id, None) ->
  LookupFails id (world st) ->
  snd (detailsHandler r st)
  = mkState _ (snd (http_Get (carURL id) (world st))) (logged st).
Proof.
  intros Hid [err Herr]%(fetchCarByID_fails id st).
  pose proof (fetchCarByID_state id st) as Hstate.
  destruct (fetchCarByID id st) as [car st1] eqn:Hcar. simpl in *. subst car st1.
  by rewrite (detailsHandler_not_found r st _ id err Hid Hcar).
Qed.

(** X17: when both fetches succeed the detail page is rendered with the
    car of the single-vehicle fetch and the first at most 3 qualifying
    cars of the list, and nothing is logged before the template is
    loaded. *)
Theorem X17_details_success (r : Request) (st st1 st2 : State) (id : Z)
    (mainCar : Car) (cars : list Car) :
  strconv.Atoi (Values_Get (URL_Query r) "id") = (id, None) ->
  fetchCarByID id st = (inr mainCar, st1) ->
  fetchCars st1 = (inr cars, st2) ->
  detailsHandler r st
  = renderPage "templates/details.html"
      (DataDetails (mkDetailsPageData mainCar
                      (take 3 (filter (Qualifies mainCar) cars)))) st2
  /\ logged st2 = logged st.
Proof.
  intros Hid Hcar Hlist. split.
  - by rewrite (detailsHandler_found r st st1 id mainCar Hid Hcar), Hlist, recommend_take.
  - pose proof (fetchCarByID_state id st) as H1.
    pose proof (fetchCars_state st1) as H2.
    rewrite Hcar in H1. rewrite Hlist in H2. simpl in *. subst. done.
Qed.

(** X18: the comparison loop makes one fetch per id parameter and skips
    the failed ones in silence: there is one result per id, at most as
    many cars are rendered as ids were given, and no fetch failure is
    logged; the only line the handler can log is that of a template that
    does not load. *)
Theorem X18_compare_silent_skip (r : Request) (st st1 : State)
    (results : list (error + Car)) :
  (2 <= length (Values_index (URL_Query r) "id"))%nat ->
  fetchEach (Values_index (URL_Query r) "id") st = (results, st1) ->
  length results = length (Values_index (URL_Query r) "id")
  /\ (length (succeeded results) <= length (Values_index (URL_Query r) "id"))%nat
  /\ logged st1 = logged st
  /\ (forall tmpl w,
       template_ParseFiles "templates/compare.html" (world st1) = (inr tmpl, w) ->
       logged (snd (compareHandler r st)) = logged st).
Proof.
  intros Hlen Hfetch.
  destruct (fetchEach_shape (Values_index (URL_Query r) "id") st) as [Hcount Hlog].
  rewrite Hfetch in Hcount, Hlog. simpl in Hcount, Hlog.
  split_and!; [done | | done |].
  - rewrite <- Hcount. apply succeeded_length.
  - intros tmpl w Hload.
    rewrite (compareHandler_enough r st Hlen), Hfetch, renderPage_run, Hload. done.
Qed.

(** X19: the detail handler turns down every id that is not numeric:
    "ID is required" for the empty one, "Invalid ID" for the others, both
    with 400 and before any request to the upstream. *)
Theorem X19_details_rejects_non_numeric (r : Request) (st : State) :
  numeric (Values_Get (URL_Query r) "id") = false ->
  detailsHandler r st
  = (http_Error (if String.eqb (Values_Get (URL_Query r) "id") ""
                 then "ID is required" else "Invalid ID") StatusBadRequest, st).
Proof.
  intros Hnum. apply detailsHandler_rejected.
  destruct (Atoi_not_numeric _ Hnum) as [-> |[_ [-> | ->]]]; done.
Qed.

(** X20: when the list of cars is fetched the catalog page is rendered
    with exactly the cars the query matches, by name or through the
    lookup maps built from whatever categories and manufacturers could be
    fetched, in upstream order; the query is shown as it was typed, and
    nothing is logged before the template is loaded. *)
Theorem X20_home_success (r : Request) (st st1 st2 st3 : State) (cars : list Car)
    (categories : error + list Category) (manufacturers : error + list Manufacturer) :
  URL_Path r = "/" ->
  fetchCars st = (inr cars, st1) ->
  fetchCategories st1 = (categories, st2) ->
  fetchManufacturers st2 = (manufacturers, st3) ->
  homeHandler r st
  = renderPage "templates/index.html"
      (DataPage (mkPageData
         (filter (QueryMatches (Values_Get (URL_Query r) "q")
                    (buildCatMap (orNil categories)) (buildManMap (orNil manufacturers)))
                 cars)
         (Values_Get (URL_Query r) "q"))) st3
  /\ logged st3 = logged st.
Proof.
  intros Hpath Hcars Hcat Hman. split.
  - by rewrite (homeHandler_render r st st1 cars Hpath Hcars), Hcat, Hman,
      filterLogic_filter.
  - pose proof (fetchCars_state st) as H1.
    pose proof (fetchCategories_state st1) as H2.
    pose proof (fetchManufacturers_state st2) as H3.
    rewrite Hcars in H1. rewrite Hcat in H2. rewrite Hman in H3.
    simpl in *. subst. done.
Qed.

(** X21: the detail handler answers 400 exactly when the id is not
    numeric (optional sign, then digits) or its value does not fit
    [int]; for every other id it looks up the value of the digits, so
    that 404 is answered exactly when the lookup of that value fails. *)
Theorem X21_details_accepts_numeric_in_range (r : Request) (st : State) :
  (StatusCode (fst (detailsHandler r st)) = StatusBadRequest
   <-> numeric (Values_Get (URL_Query r) "id") = false
       \/ fitsInt (signedValue (Values_Get (URL_Query r) "id")) = false)
  /\ (numeric (Values_Get (URL_Query r) "id") = true ->
      fitsInt (signedValue (Values_Get (URL_Query r) "id")) = true ->
      (fst (detailsHandler r st) = http_Error "Car not found" StatusNotFound
       <-> LookupFails (signedValue (Values_Get (URL_Query r) "id")) (world st))).
Proof.
  destruct (numeric (Values_Get (URL_Query r) "id")) eqn:Hnum.
  - pose proof (Atoi_numeric _ Hnum) as Hatoi.
    destruct (fitsInt (signedValue (Values_Get (URL_Query r) "id"))) eqn:Hfits.
    + destruct (detailsHandler_accepted_status r st _ Hatoi) as [Hnot Hlookup].
      split; [|done]. split; [done | intros [?|?]; discriminate].
    + split; [|discriminate].
      rewrite detailsHandler_rejected by (by rewrite Hatoi). simpl. split; auto.
  - split; [|discriminate].
    rewrite detailsHandler_rejected. { simpl. split; auto. }
    destruct (Atoi_not_numeric _ Hnum) as [-> |[_ [-> | ->]]]; done.
Qed.

(** X22: in the comparison loop a numeric id is fetched by the value of
    its digits when that fits [int], and by the nearest bound of [int]
    when it does not. *)
Theorem X22_compare_numeric_id (idStr : string) (ids : list string)
    (selectedCars : list Car) (st : State) :
  numeric idStr = true ->
  selectLoop (idStr :: ids) selectedCars st
  = let id := if fitsInt (signedValue idStr) then signedValue idStr
              else if signedValue idStr <? 0 then minInt else maxInt in
    let '(car, st1) := fetchCarByID id st in
    selectLoop ids (match car with
                    | inr car => selectedCars ++ [car]
                    | inl _ => selectedCars
                    end) st1.
Proof.
  intros Hnum. cbn [selectLoop]. rewrite (Atoi_numeric _ Hnum).
  by destruct (fitsInt (signedValue idStr)).
Qed.

(** C7 (amended): an id parameter that is not numeric never aborts the
    request.  [Atoi] fails on it and the handler goes on to fetch the
    value [Atoi] returned.  That value is zero, with a syntax error,
    unless the digits the id starts with behind its optional sign exceed
    the largest [uint64], which takes an id of at least 21 bytes; then
    [Atoi] reports a range error and the value is the largest [int], or
    the smallest [int] behind a minus sign. *)
Theorem C7_compare_permissive_parse (idStr : string) :
  numeric idStr = false ->
  strconv.Atoi idStr
  = (if decimalValue (leadingDigits (unsignedPart idStr)) 0 <=? strconv.maxUint64
     then (0, Some strconv.ErrSyntax)
     else (if isNegative idStr then minInt else maxInt, Some strconv.ErrRange))
  /\ ((String.length idStr <= 20)%nat ->
      strconv.Atoi idStr = (0, Some strconv.ErrSyntax))
  /\ (forall ids selectedCars st,
        selectLoop (idStr :: ids) selectedCars st
        = let '(car, st1) := fetchCarByID (fst (strconv.Atoi idStr)) st in
          selectLoop ids (match car with
                          | inr car => selectedCars ++ [car]
                          | inl _ => selectedCars
                          end) st1)
  /\ (forall r st,
        idStr ∈ Values_index (URL_Query r) "id" ->
        (2 <= length (Values_index (URL_Query r) "id"))%nat ->
        StatusCode (fst (compareHandler r st)) <> StatusBadRequest).
Proof.
  intros Hnum. split_and!.
  - by apply Atoi_leading.
  - intros Hshort. rewrite (Atoi_leading idStr Hnum).
    pose proof (leadingDigits_fits idStr Hnum Hshort) as Hfits.
    by destruct (Z.leb_spec (decimalValue (leadingDigits (unsignedPart idStr)) 0)
                   strconv.maxUint64); [|lia].
  - reflexivity.
  - intros r st _ Hlen. rewrite compareHandler_status. lia.
Qed.

End HandlerRuns.

(** ** The further properties at work on the demo upstreams *)

Lemma X3_filter_refined_query_witness :
  @filterLogic Demo.unicode "Model" (Demo.catalogue Demo.healthy) ∅ ∅
  `sublist_of` @filterLogic Demo.unicode "mod" (Demo.catalogue Demo.healthy) ∅ ∅.
Proof.
  apply (proj1 (@X3_filter_refined_query Demo.unicode "mod" "Model"
                  (Demo.catalogue Demo.healthy) ∅ ∅
                  ltac:(exists "", "el"; reflexivity))).
Defined.

Lemma X4_filter_ascii_case_insensitive_witness :
  @filterLogic Demo.unicode "model" (Demo.catalogue Demo.healthy) ∅ ∅
  = @filterLogic Demo.unicode "MODEL" (Demo.catalogue Demo.healthy) ∅ ∅.
Proof.
  apply (@X4_filter_ascii_case_insensitive Demo.unicode "MODEL"
           (Demo.catalogue Demo.healthy) ∅ ∅).
  reflexivity.
Defined.

Lemma X5_filter_unresolved_by_name_witness :
  @filterLogic Demo.unicode "x" [Demo.car1; Demo.car2] ∅ ∅ = [Demo.car1].
Proof.
  rewrite (@X5_filter_unresolved_by_name Demo.unicode "x" [Demo.car1; Demo.car2] ∅ ∅)
    by (repeat constructor).
  vm_compute. reflexivity.
Defined.

Lemma X11_printed_id_is_fetched_witness :
  StatusCode (fst (@detailsHandler (Demo.runtime Demo.healthy)
                     (Demo.request "/car" "id" ["-7"]) (Demo.start Demo.healthy)))
  <> StatusBadRequest.
Proof.
  apply (proj1 (proj1 (@X11_printed_id_is_fetched (Demo.runtime Demo.healthy) (-7)
                         (Demo.request "/car" "id" ["-7"]) (Demo.start Demo.healthy)
                         ltac:(unfold minInt, maxInt; lia))
                      ltac:(vm_compute; reflexivity))).
Defined.

Lemma X14_home_mandatory_fetch_witness :
  @homeHandler Demo.unicode (Demo.runtime Demo.withListDown)
    (Demo.request "/" "q" ["model"]) (Demo.start Demo.withListDown)
  = (http_Error "Failed to load cars. Is Node running?" StatusInternalServerError,
     @mkState (Demo.runtime Demo.withListDown)
       ["http://127.0.0.1:3000/api/models"]
       ["Error fetching cars: connection reset"]).
Proof.
  rewrite (@X14_home_mandatory_fetch Demo.unicode (Demo.runtime Demo.withListDown)
             (Demo.request "/" "q" ["model"]) (Demo.start Demo.withListDown)
             "connection reset" ltac:(reflexivity) ltac:(vm_compute; reflexivity)).
  vm_compute. reflexivity.
Defined.

Lemma X15_home_optional_fetches_witness :
  fst (@homeHandler Demo.unicode Outage.runtime
         (Demo.request "/" "q" ["MODEL"]) Outage.start)
  = mkResponse 200 "templates/index.html q=MODEL cars=Model X;Model Y;".
Proof.
  rewrite (proj1 (@X15_home_optional_fetches Demo.unicode Outage.runtime
             (Demo.request "/" "q" ["MODEL"]) Outage.start
             (@mkState Outage.runtime ["http://127.0.0.1:3000/api/models"] [])
             (@mkState Outage.runtime
                ["http://127.0.0.1:3000/api/models";
                 "http://127.0.0.1:3000/api/categories"] [])
             (@mkState Outage.runtime
                ["http://127.0.0.1:3000/api/models";
                 "http://127.0.0.1:3000/api/categories";
                 "http://127.0.0.1:3000/api/manufacturers"] [])
             [Demo.car1; Demo.car2; Demo.car3] "connection refused" "connection refused"
             ltac:(reflexivity) ltac:(vm_compute; reflexivity)
             ltac:(vm_compute; reflexivity) ltac:(vm_compute; reflexivity))).
  vm_compute. reflexivity.
Defined.

Lemma X16_details_not_found_stops_witness :
  snd (@detailsHandler (Demo.runtime Demo.healthy)
         (Demo.request "/car" "id" ["999"]) (Demo.start Demo.healthy))
  = @mkState (Demo.runtime Demo.healthy) ["http://127.0.0.1:3000/api/models/999"] [].
Proof.
  rewrite (@X16_details_not_found_stops (Demo.runtime Demo.healthy)
             (Demo.request "/car" "id" ["999"]) (Demo.start Demo.healthy) 999
             ltac:(vm_compute; reflexivity) ltac:(vm_compute; left; discriminate)).
  vm_compute. reflexivity.
Defined.

Lemma X17_details_success_witness :
  fst (@detailsHandler (Demo.runtime Demo.healthy)
         (Demo.request "/car" "id" ["1"]) (Demo.start Demo.healthy))
  = mkResponse 200 "templates/details.html car=Model X related=Model Y;Roadster;Cyber;".
Proof.
  rewrite (proj1 (@X17_details_success (Demo.runtime Demo.healthy)
             (Demo.request "/car" "id" ["1"]) (Demo.start Demo.healthy)
             (@mkState (Demo.runtime Demo.healthy) ["http://127.0.0.1:3000/api/models/1"] [])
             (@mkState (Demo.runtime Demo.healthy)
                ["http://127.0.0.1:3000/api/models/1"; "http://127.0.0.1:3000/api/models"] [])
             1 Demo.car1 (Demo.catalogue Demo.healthy)
             ltac:(vm_compute; reflexivity) ltac:(vm_compute; reflexivity)
             ltac:(vm_compute; reflexivity))).
  vm_compute. reflexivity.
Defined.

Lemma X18_compare_silent_skip_witness :
  logged (snd (@compareHandler (Demo.runtime Demo.healthy)
                 (Demo.request "/compare" "id" ["1"; "999"; "2"])
                 (Demo.start Demo.healthy)))
  = [].
Proof.
  apply (proj2 (proj2 (proj2 (@X18_compare_silent_skip (Demo.runtime Demo.healthy)
           (Demo.request "/compare" "id" ["1"; "999"; "2"]) (Demo.start Demo.healthy)
           (@mkState (Demo.runtime Demo.healthy)
              ["http://127.0.0.1:3000/api/models/1";
               "http://127.0.0.1:3000/api/models/999";
               "http://127.0.0.1:3000/api/models/2"] [])
           [inr Demo.car1; inl "API returned status: 404"; inr Demo.car2]
           ltac:(vm_compute; lia) ltac:(vm_compute; reflexivity))))
         "templates/compare.html"
         ["http://127.0.0.1:3000/api/models/1";
          "http://127.0.0.1:3000/api/models/999";
          "http://127.0.0.1:3000/api/models/2"]).
  vm_compute. reflexivity.
Defined.

Lemma X19_details_rejects_non_numeric_witness :
  @detailsHandler (Demo.runtime Demo.healthy)
    (Demo.request "/car" "id" ["abc"]) (Demo.start Demo.healthy)
  = (http_Error "Invalid ID" StatusBadRequest, Demo.start Demo.healthy).
Proof.
  apply (@X19_details_rejects_non_numeric (Demo.runtime Demo.healthy)
           (Demo.request "/car" "id" ["abc"]) (Demo.start Demo.healthy)).
  vm_compute. reflexivity.
Defined.

Lemma X20_home_success_witness :
  fst (@homeHandler Demo.unicode (Demo.runtime Demo.healthy)
         (Demo.request "/" "q" ["Audi"]) (Demo.start Demo.healthy))
  = mkResponse 200 "templates/index.html q=Audi cars=Model Y;".
Proof.
  rewrite (proj1 (@X20_home_success Demo.unicode (Demo.runtime Demo.healthy)
             (Demo.request "/" "q" ["Audi"]) (Demo.start Demo.healthy)
             (@mkState (Demo.runtime Demo.healthy) ["http://127.0.0.1:3000/api/models"] [])
             (@mkState (Demo.runtime Demo.healthy)
                ["http://127.0.0.1:3000/api/models";
                 "http://127.0.0.1:3000/api/categories"] [])
             (@mkState (Demo.runtime Demo.healthy)
                ["http://127.0.0.1:3000/api/models";
                 "http://127.0.0.1:3000/api/categories";
                 "http://127.0.0.1:3000/api/manufacturers"] [])
             (Demo.catalogue Demo.healthy)
             (inr (Demo.categories Demo.healthy)) (inr (Demo.manufacturers Demo.healthy))
             ltac:(reflexivity) ltac:(vm_compute; reflexivity)
             ltac:(vm_compute; reflexivity) ltac:(vm_compute; reflexivity))).
  vm_compute. reflexivity.
Defined.

Lemma X22_compare_numeric_id_witness :
  @selectLoop (Demo.runtime Demo.healthy) ["+002"; "99999999999999999999"] []
    (Demo.start Demo.healthy)
  = ([Demo.car2],
     @mkState (Demo.runtime Demo.healthy)
       ["http://127.0.0.1:3000/api/models/2";
        "http://127.0.0.1:3000/api/models/9223372036854775807"] []).
Proof.
  rewrite (@X22_compare_numeric_id (Demo.runtime Demo.healthy) "+002"
             ["99999999999999999999"] [] (Demo.start Demo.healthy)
             ltac:(vm_compute; reflexivity)).
  vm_compute. reflexivity.
Defined.

Lemma C7_compare_permissive_parse_witness :
  world (snd (@selectLoop (Demo.runtime Demo.healthy)
                ["9223372036854775808x"; "-99999999999999999999x"] []
                (Demo.start Demo.healthy)))
  = ["http://127.0.0.1:3000/api/models/0";
     "http://127.0.0.1:3000/api/models/-9223372036854775808"].
Proof.
  rewrite (proj1 (proj2 (proj2 (@C7_compare_permissive_parse (Demo.runtime Demo.healthy)
                                  "9223372036854775808x"
                                  ltac:(vm_compute; reflexivity))))).
  vm_compute. reflexivity.
Defined.

(** Nineteen digits that exceed [int] but not [uint64]: the letter behind
    them is reached, and the id parses to 0 with a syntax error. *)
Example Atoi_digits_within_uint64 :
  strconv.Atoi "9223372036854775808x" = (0, Some strconv.ErrSyntax)
  /\ strconv.Atoi "18446744073709551615x" = (0, Some strconv.ErrSyntax)
  /\ strconv.Atoi "18446744073709551616x" = (maxInt, Some strconv.ErrRange)
  /\ strconv.Atoi "-18446744073709551616x" = (minInt, Some strconv.ErrRange).
Proof. split_and!; vm_compute; reflexivity. Qed.
